(** * Countdown-timer badge service (app.py): model and verified properties

    A shallow embedding of the text-selection, cache-key, animation-assembly
    and font-fitting code of [app.py].

    Conventions of the embedding.
    - Python [int] is [Z]; [//] and [%] are [Z.div] and [Z.modulo] (floor
      division, remainder with the sign of the divisor); [int(x)] of a float
      truncates toward zero ([Z.quot]).
    - Python [str] is [string]; non-ASCII characters are held as their UTF-8
      bytes.  [str(n)] of an integer is stdpp's [pretty].
    - A raised exception is the [Raise] case of [result]; [try/except] is a
      match on it.
    - An aware [datetime] is its instant in microseconds since the Unix epoch,
      restricted to the years 1..9999 that the type can hold.
    - Every float of the program is a number of seconds that comes from a
      whole number of microseconds ([total_seconds()], [timestamp()]); it is
      modelled by that whole number.  The IEEE rounding of such a quotient
      changes neither [int(x)] nor [x // 60] while its magnitude stays below
      2^33 seconds, which covers present-day timestamps.
    - Pillow's rasterisation and encoding are not modelled: an image is
      represented by the arguments that determine it. *)

From Stdlib Require Import Ascii.
From stdpp Require Import base numbers option list strings gmap pretty.

Open Scope Z_scope.

(** ** Exceptions *)

Inductive exn : Type :=
  | KeyError
  | ValueError
  | OverflowError
  | IndexError.

Inductive result (A : Type) : Type :=
  | Ok (a : A)
  | Raise (e : exn).
Arguments Ok {A} a.
Arguments Raise {A} e.

#[global] Instance result_ret : MRet result := λ A a, Ok a.
#[global] Instance result_bind : MBind result := λ A B f m,
  match m with
  | Ok a => f a
  | Raise e => Raise e
  end.

Definition is_Ok {A} (r : result A) : Prop := ∃ a, r = Ok a.

(** ** Module constants (app.py lines 9-18) *)

Definition WIDTH : Z := 600.
Definition HEIGHT : Z := 140.
Definition FONT_SIZE : Z := 80.
Definition CACHE_SECONDS : Z := 60.
Definition CTA_FRAMES : Z := 5.
Definition DEFAULT_LANG : string := "en".

(** ** Localized text table (lines 20-31) *)

Definition LANG_TXT : gmap string (gmap string string) :=
  <["en" := <["cta" := "START BETTING"]>
            (<["started" := "MATCH HAS STARTED"]>
            (<["over" := "MATCH IS OVER"]> ∅))]>
  (<["et" := <["cta" := "ALUSTA PANUSTAMIST"]>
            (<["started" := "MÄNG ON ALANUD"]>
            (<["over" := "MÄNG ON LÄBI"]> ∅))]> ∅).

(** [d[k]]: subscription raises [KeyError] on a missing key. *)
Definition subscript {V} (d : gmap string V) (k : string) : result V :=
  match d !! k with
  | Some v => Ok v
  | None => Raise KeyError
  end.

(** [t(lang, key)], line 44.  Both defaults are evaluated before the [get]
    that uses them, as Python evaluates arguments eagerly. *)
Definition t (lang key : string) : result string :=
  fallback ← subscript LANG_TXT DEFAULT_LANG;
  let table := default fallback (LANG_TXT !! lang) in
  fallback' ← subscript LANG_TXT DEFAULT_LANG;
  dflt ← subscript fallback' key;
  Ok (default dflt (table !! key)).

(** ** Integer formatting: the format spec [02] of an f-string *)

Fixpoint zeros (k : nat) : string :=
  match k with
  | O => ""
  | S k' => String "0" (zeros k')
  end.

Definition zfill (width : nat) (s : string) : string :=
  zeros (width - String.length s) +:+ s.

(** [f"{n:02}"]: sign-aware zero padding to a minimum width of 2. *)
Definition format_02 (n : Z) : string :=
  if decide (n < 0) then "-" +:+ zfill 1 (pretty (- n)) else zfill 2 (pretty n).

(** ** Aware datetimes and timedeltas *)

Record datetime : Type := Datetime { micros : Z }.
Record timedelta : Type := Timedelta { td_micros : Z }.

(** A float holding a number of seconds, as its count of microseconds. *)
Record seconds_float : Type := SecondsFloat { sf_micros : Z }.

(** [datetime.min] and [datetime.max] in UTC, as epoch microseconds:
    0001-01-01T00:00:00 and 9999-12-31T23:59:59.999999. *)
Definition MIN_MICROS : Z := -62135596800000000.
Definition MAX_MICROS : Z := 253402300799999999.

Definition in_range (us : Z) : bool :=
  bool_decide (MIN_MICROS ≤ us ≤ MAX_MICROS).

Definition td_seconds (s : Z) : timedelta := Timedelta (s * 1000000).
Definition td_hours (h : Z) : timedelta := Timedelta (h * 3600 * 1000000).

(** [datetime.fromtimestamp(ts, timezone.utc)] for an integer [ts]; a
    timestamp outside the years 1..9999 is refused ([ValueError]; CPython
    reports [OverflowError] or [OSError] instead beyond the platform's
    [time_t]/[gmtime] limits). *)
Definition fromtimestamp (ts : Z) : result datetime :=
  if in_range (ts * 1000000) then Ok (Datetime (ts * 1000000))
  else Raise ValueError.

(** [d + delta]: raises [OverflowError] when the sum leaves the range. *)
Definition dt_add (d : datetime) (delta : timedelta) : result datetime :=
  let us := micros d + td_micros delta in
  if in_range us then Ok (Datetime us) else Raise OverflowError.

(** [a - b] on aware datetimes. *)
Definition dt_sub (a b : datetime) : timedelta :=
  Timedelta (micros a - micros b).

(** [a > b] on aware datetimes. *)
Definition dt_gt (a b : datetime) : bool := bool_decide (micros a > micros b).

Definition total_seconds (d : timedelta) : seconds_float :=
  SecondsFloat (td_micros d).

(** [d.timestamp()] of an aware datetime. *)
Definition timestamp (d : datetime) : seconds_float :=
  SecondsFloat (micros d).

(** [int(x)] of a float: truncation toward zero.  The float is taken to
    hold its count of microseconds exactly; the nearest double does so for
    whole seconds, and beyond 2^33 seconds may round a sub-second value to
    the next whole second. *)
Definition int_of_float (x : seconds_float) : Z := sf_micros x `quot` 1000000.

(** [x // k] of a float by a positive integer: the floor, as a float. *)
Definition float_floordiv (x : seconds_float) (k : Z) : seconds_float :=
  SecondsFloat (sf_micros x `div` (k * 1000000) * 1000000).

(** ** Frame text selection *)

Definition hh_mm_ss (remaining : Z) : string :=
  let h := remaining `div` 3600 in
  let m := (remaining `mod` 3600) `div` 60 in
  let s := remaining `mod` 60 in
  format_02 h +:+ ":" +:+ format_02 m +:+ ":" +:+ format_02 s.

Definition hh_mm (remaining : Z) : string :=
  let minutes := remaining `div` 60 in
  let h := minutes `div` 60 in
  let m := minutes `mod` 60 in
  format_02 h +:+ ":" +:+ format_02 m.

(** Lines 119-134 of [get_timer_text], after [remaining] is computed. *)
Definition timer_text_of (remaining : Z) (mode lang : string) : result string :=
  if decide (remaining > 0) then
    if decide (mode = "png") then Ok (hh_mm remaining)
    else Ok (hh_mm_ss remaining)
  else
    let elapsed := Z.abs remaining in
    if decide (elapsed ≤ 3600) then t lang "started"
    else t lang "over".

(** [get_timer_text(end_time, now, mode, lang)], lines 116-134. *)
Definition get_timer_text (end_time now : datetime) (mode lang : string)
  : result string :=
  let remaining := int_of_float (total_seconds (dt_sub end_time now)) in
  timer_text_of remaining mode lang.

(** Lines 173-184 of [generate_gif_cached]: the text of frame [i] once
    [remaining] is computed. *)
Definition frame_text (remaining i : Z) (lang : string) : result string :=
  if bool_decide (remaining ≤ 0) && bool_decide (Z.abs remaining ≤ 3600) then
    t lang "started"
  else if bool_decide (remaining < -3600) then
    t lang "over"
  else
    if bool_decide (remaining > 0) && bool_decide (i >= 60 - CTA_FRAMES) then
      t lang "cta"
    else Ok (hh_mm_ss remaining).

(** ** Cache-key quantizer (lines 137-146) *)

(** Truth value of [t_param], which is [None] or a string. *)
Definition truthy (t_param : option string) : bool :=
  match t_param with
  | Some s => bool_decide (s ≠ "")
  | None => false
  end.

(** [int(datetime.now(timezone.utc).timestamp() // CACHE_SECONDS) * CACHE_SECONDS],
    where [clock] is the reading of [datetime.now]. *)
Definition bucketed_now (clock : datetime) : Z :=
  int_of_float (float_floordiv (timestamp clock) CACHE_SECONDS) * CACHE_SECONDS.

Section CacheKey.
(** The builtin [int] applied to a string: the parsed integer, or [None]
    for the [ValueError] it raises on a string that is no integer literal. *)
Variable py_int : string → option Z.

Definition get_cache_key (end_time : datetime) (t_param : option string)
    (lang : string) (clock : datetime) : result (Z * Z * string) :=
  let rounded :=
    if truthy t_param then
      match py_int (default "" t_param) with
      | Some v => v
      | None => bucketed_now clock
      end
    else bucketed_now clock in
  Ok (int_of_float (timestamp end_time), rounded, lang).
End CacheKey.

(** An instance of the builtin for plain ASCII literals: surrounding blanks,
    an optional sign, then one or more decimal digits. *)
Definition digit_value (c : ascii) : option Z :=
  let n := Z.of_nat (nat_of_ascii c) in
  if bool_decide (48 ≤ n ≤ 57) then Some (n - 48) else None.

Fixpoint parse_digits (s : string) (acc : Z) : option Z :=
  match s with
  | EmptyString => Some acc
  | String c s' => d ← digit_value c; parse_digits s' (10 * acc + d)
  end.

Definition parse_unsigned (s : string) : option Z :=
  match s with
  | EmptyString => None
  | _ => parse_digits s 0
  end.

Fixpoint lstrip (s : string) : string :=
  match s with
  | String c s' => if bool_decide (c = " "%char) then lstrip s' else s
  | EmptyString => s
  end.

Definition strip (s : string) : string :=
  String.rev (lstrip (String.rev (lstrip s))).

Definition int_literal (s : string) : option Z :=
  match strip s with
  | String "-"%char s' => Z.opp <$> parse_unsigned s'
  | String "+"%char s' => parse_unsigned s'
  | s' => parse_unsigned s'
  end.

(** ** Frames and the animation assembler (lines 110-113, 149-198) *)

(** [frame_from_cache(lang, text)]: the palettised badge image, a function
    of its two arguments. *)
Record frame : Type := Frame { frame_lang : string; frame_label : string }.

Definition frame_from_cache (lang text : string) : frame := Frame lang text.

(** The arguments of the [save(..., format="GIF", save_all=True, ...)] call
    that encodes the animation. *)
Record gif : Type := Gif {
  gif_first : frame;
  gif_append_images : list frame;
  gif_duration : Z;
  gif_optimize : bool;
  gif_disposal : Z
}.

Definition gif_frames (g : gif) : list frame :=
  gif_first g :: gif_append_images g.

(** Body of the loop of lines 169-186 for one [i]. *)
Definition gif_loop_body (lang : string) (end_time now : datetime) (i : Z)
  : result frame :=
  frame_now ← dt_add now (td_seconds i);
  let remaining := int_of_float (total_seconds (dt_sub end_time frame_now)) in
  text ← frame_text remaining i lang;
  Ok (frame_from_cache lang text).

(** [for i in range: frames.append(body(i))], stopping at the first raise. *)
Fixpoint for_append (body : Z → result frame) (range : list Z)
    (frames : list frame) : result (list frame) :=
  match range with
  | [] => Ok frames
  | i :: range' => f ← body i; for_append body range' (frames ++ [f])
  end.

Definition generate_gif_cached (end_timestamp rounded_timestamp : Z)
    (lang : string) : result gif :=
  end_time ← fromtimestamp end_timestamp;
  now ← fromtimestamp rounded_timestamp;
  limit ← dt_add end_time (td_hours 1);
  if dt_gt now limit then
    text ← t lang "over";
    Ok (Gif (frame_from_cache lang text) [] 1000 true 2)
  else
    frames ← for_append (gif_loop_body lang end_time now) (seqZ 0 60) [];
    match frames with
    | [] => Raise IndexError
    | first :: rest => Ok (Gif first rest 1000 true 2)
    end.

(** ** [functools.lru_cache] *)

Section LruCache.
Context {K V : Type} `{EqDecision K}.

(** Entries, most recently used first. *)
Fixpoint lru_get (key : K) (store : list (K * V)) : option V :=
  match store with
  | [] => None
  | (k, v) :: store' => if decide (k = key) then Some v else lru_get key store'
  end.

Definition lru_drop (key : K) (store : list (K * V)) : list (K * V) :=
  filter (λ kv, kv.1 ≠ key) store.

(** One call through the cache: the outcome, the store afterwards, and
    whether the wrapped function ran.  A raise stores nothing. *)
Definition lru_call (maxsize : nat) (f : K → result V) (key : K)
    (store : list (K * V)) : result V * list (K * V) * bool :=
  match lru_get key store with
  | Some v => (Ok v, (key, v) :: lru_drop key store, false)
  | None =>
      match f key with
      | Ok v => (Ok v, take maxsize ((key, v) :: store), true)
      | Raise e => (Raise e, store, true)
      end
  end.
End LruCache.

(** Lines 215-216 of [timer_gif]: key, then the cached assembler. *)
Definition timer_gif (py_int : string → option Z) (end_time : datetime)
    (t_param : option string) (lang : string) (clock : datetime)
    (cache : list (Z * Z * string * gif))
  : result gif * list (Z * Z * string * gif) * bool :=
  match get_cache_key py_int end_time t_param lang clock with
  | Ok key =>
      lru_call 256 (λ k, generate_gif_cached k.1.1 k.1.2 k.2) key cache
  | Raise e => (Raise e, cache, false)
  end.

(** Lines 242-244 of [timer_png]: the text of the still image. *)
Definition timer_png_text (end_time : datetime) (lang : string)
    (clock : datetime) : result string :=
  get_timer_text end_time clock "png" lang.

(** ** Badge rasterizer (lines 52-95) *)

Definition BORDER : Z := 6.
Definition PADDING_X : Z := 18.
Definition PADDING_Y : Z := 10.
Definition max_w : Z := (WIDTH - 2 * BORDER) - 2 * PADDING_X.
Definition max_h : Z := (HEIGHT - 2 * BORDER) - 2 * PADDING_Y.

(** What [render_timer_frame] draws. *)
Record badge : Type := Badge {
  badge_outer : Z * Z * Z * Z;
  badge_inner : Z * Z * Z * Z;
  badge_font_size : Z;
  badge_text_xy : Z * Z;
  badge_text : string
}.

Section Rasterizer.
(** [draw.textbbox((0, 0), text, font=get_font(size))] as
    [(left, top, right, bottom)]. *)
Variable textbbox : string → Z → Z * Z * Z * Z.

Definition fits (text : string) (size : Z) : bool :=
  let '(x0, y0, x1, y1) := textbbox text size in
  let text_w := x1 - x0 in
  let text_h := y1 - y0 in
  bool_decide (text_w ≤ max_w) && bool_decide (text_h ≤ max_h).

(** The [while size >= 18] loop of lines 71-78; the result is the value
    of [size] when the loop is left. *)
Fixpoint fit_loop (fuel : nat) (text : string) (size : Z) : option Z :=
  match fuel with
  | O => None
  | S fuel' =>
      if bool_decide (size >= 18) then
        if fits text size then Some size
        else fit_loop fuel' text (size - 2)
      else Some size
  end.

Definition render_timer_frame (text lang : string) : option badge :=
  size ← fit_loop 64 text FONT_SIZE;
  let '(x0, y0, x1, y1) := textbbox text size in
  let text_w := x1 - x0 in
  let text_h := y1 - y0 in
  let inner_left := BORDER in
  let inner_top := BORDER in
  let inner_w := WIDTH - 2 * BORDER in
  let inner_h := HEIGHT - 2 * BORDER in
  let x := inner_left + (inner_w - text_w) `div` 2 - x0 in
  let y := inner_top + (inner_h - text_h) `div` 2 - y0 in
  Some (Badge (0, 0, WIDTH, HEIGHT)
              (BORDER, BORDER, WIDTH - BORDER, HEIGHT - BORDER)
              size (x, y) text).
End Rasterizer.

(** ** Definitions used to state the properties *)

Definition is_digit (c : ascii) : bool :=
  bool_decide (48 ≤ nat_of_ascii c ≤ 57)%nat.

Definition starts_with_digit (s : string) : Prop :=
  ∃ c rest, s = String c rest ∧ is_digit c = true.

(** A string whose first character is a decimal digit or a minus sign. *)
Definition numeric_head (s : string) : Prop :=
  ∃ c rest, s = String c rest ∧ (is_digit c = true ∨ c = "-"%char).

(** The spec's reading of [remaining]: the floor of the difference in seconds. *)
Definition spec_remaining (end_time now : datetime) : Z :=
  (micros end_time - micros now) `div` 1000000.

Inductive category : Type :=
  | Countdown
  | CallToAction
  | Started
  | Over.

(** A field written with the format [02], read back: decimal digits that
    give [n], at least two of them, and more than two only without a
    leading zero. *)
Definition field_02 (s : string) (n : Z) : Prop :=
  parse_digits s 0 = Some n ∧
  (2 ≤ String.length s)%nat ∧
  (String.length s = 2%nat ∨ ∃ c rest, s = String c rest ∧ c ≠ "0"%char).

(** The shape [HH:MM:SS] for a given [remaining]: three such fields, the
    last two of exactly two digits, holding the hours, the minutes below 60
    and the seconds below 60 of [remaining]. *)
Definition is_hh_mm_ss (s : string) (remaining : Z) : Prop :=
  ∃ hs ms ss,
    s = hs +:+ ":" +:+ ms +:+ ":" +:+ ss ∧
    field_02 hs (remaining `div` 3600) ∧
    field_02 ms ((remaining `mod` 3600) `div` 60) ∧ String.length ms = 2%nat ∧
    field_02 ss (remaining `mod` 60) ∧ String.length ss = 2%nat.

(** The shape [HH:MM] for a given [remaining]. *)
Definition is_hh_mm (s : string) (remaining : Z) : Prop :=
  ∃ hs ms,
    s = hs +:+ ":" +:+ ms ∧
    field_02 hs ((remaining `div` 60) `div` 60) ∧
    field_02 ms ((remaining `div` 60) `mod` 60) ∧ String.length ms = 2%nat.

(** What it is for a string to belong to a category: the countdown shape
    of the mode ([HH:MM] in "png", [HH:MM:SS] otherwise), or the table
    entry of the language. *)
Definition in_category (lang mode : string) (remaining : Z) (c : category)
    (s : string) : Prop :=
  match c with
  | Countdown =>
      if decide (mode = "png") then is_hh_mm s remaining
      else is_hh_mm_ss s remaining
  | CallToAction => t lang "cta" = Ok s
  | Started => t lang "started" = Ok s
  | Over => t lang "over" = Ok s
  end.

(** The timestamps [datetime.fromtimestamp] accepts. *)
Definition valid_timestamp (ts : Z) : Prop :=
  MIN_MICROS ≤ ts * 1000000 ≤ MAX_MICROS.

(** The spec's bucket: floor(currentEpochSeconds / 60) * 60, the current
    epoch seconds being the clock's microseconds over 10^6. *)
Definition spec_bucket (clock : datetime) : Z :=
  micros clock `div` 60000000 * 60.

(** A fixed-pitch measurement for examples: every character is 0.6 em wide
    and 1 em high, as in a monospaced face. *)
Definition monospace_bbox (text : string) (size : Z) : Z * Z * Z * Z :=
  (0, 0, (Z.of_nat (String.length text) * size * 3) `div` 5, size).

Definition sixty_zeros : string :=
  "000000000000000000000000000000000000000000000000000000000000".

(** ** Language negotiation (lines 17, 34-40) *)

Definition SUPPORTED_LANG_TXT : gset string := {[ "en"; "et" ]}.

(** [x or d] for [x] that is [None] or a string. *)
Definition or_else (x : option string) (d : string) : string :=
  match x with
  | Some s => if decide (s = "") then d else s
  | None => d
  end.

Section PickLang.
(** The string methods [lower] and [strip]. *)
Variable str_lower str_strip : string → string.
(** [request.accept_languages.best_match] for the request at hand. *)
Variable best_match : list string → option string.

(** [pick_lang()], where [arg_lang] is [request.args.get("lang")]. *)
Definition pick_lang (arg_lang : option string) : string :=
  let lang := str_strip (str_lower (or_else arg_lang "")) in
  if decide (lang ∈ SUPPORTED_LANG_TXT) then lang
  else
    let best := best_match (elements SUPPORTED_LANG_TXT) in
    or_else best DEFAULT_LANG.
End PickLang.

(** An instance of [lower] on ASCII letters, for examples. *)
Definition ascii_lower (c : ascii) : ascii :=
  let n := nat_of_ascii c in
  if bool_decide (65 ≤ n ≤ 90)%nat then ascii_of_nat (n + 32) else c.

Fixpoint lower_ascii (s : string) : string :=
  match s with
  | EmptyString => EmptyString
  | String c s' => String (ascii_lower c) (lower_ascii s')
  end.

(** ** The two routes (lines 201-254) *)

(** [s.replace("Z", "+00:00")]. *)
Fixpoint replace_Z (s : string) : string :=
  match s with
  | EmptyString => EmptyString
  | String c s' =>
      if decide (c = "Z"%char) then "+00:00" +:+ replace_Z s'
      else String c (replace_Z s')
  end.

(** What [datetime.fromisoformat] returns: an aware datetime when the text
    carries a UTC offset, a naive one (a wall-clock reading, in
    microseconds) when it does not. *)
Inductive parsed_datetime : Type :=
  | Aware (d : datetime)
  | Naive (wall : Z).

Inductive payload : Type :=
  | GifBytes (g : gif)
  | PngBytes (b : badge).

(** What a view returns: a [(text, status)] pair, or the response of
    [send_file] with the headers set on it. *)
Inductive response : Type :=
  | TextStatus (text : string) (status : Z)
  | SentFile (data : payload) (mimetype : string)
      (headers : list (string * string)).

(** The exceptions a view can let through: those of the functions above,
    and the [TypeError] of subtracting an aware datetime from a naive one. *)
Inductive view_exn : Type :=
  | Core (e : exn)
  | TypeError.

Inductive outcome : Type :=
  | Returns (r : response)
  | Uncaught (e : view_exn)
  | OutOfFuel.

Section Views.
Variable str_lower str_strip : string → string.
Variable best_match : list string → option string.
(** [datetime.fromisoformat]; [None] is its [ValueError]. *)
Variable fromisoformat : string → option parsed_datetime.
(** The instant whose [timestamp()] a naive datetime reports (local time). *)
Variable local_instant : Z → datetime.
Variable py_int : string → option Z.
Variable textbbox : string → Z → Z * Z * Z * Z.

(** [timer_gif()], lines 202-223; [args] is [request.args], [clock] the
    reading of [datetime.now], [cache] the store of [generate_gif_cached]. *)
Definition timer_gif_view (args : gmap string string) (clock : datetime)
    (cache : list (Z * Z * string * gif))
  : outcome * list (Z * Z * string * gif) :=
  let end_ := args !! "end" in
  if negb (truthy end_) then
    (Returns (TextStatus "Missing 'end' parameter" 400), cache)
  else
    let lang := pick_lang str_lower str_strip best_match (args !! "lang") in
    let t_param := args !! "t" in
    match fromisoformat (replace_Z (default "" end_)) with
    | None => (Returns (TextStatus "Invalid end parameter" 400), cache)
    | Some parsed =>
        let end_time :=
          match parsed with
          | Aware d => d
          | Naive wall => local_instant wall
          end in
        match timer_gif py_int end_time t_param lang clock cache with
        | (Ok gif_bytes, cache', _) =>
            (Returns (SentFile (GifBytes gif_bytes) "image/gif"
                        [("Cache-Control",
                          "public, max-age=" +:+ pretty CACHE_SECONDS);
                         ("Vary", "Accept-Language")]),
             cache')
        | (Raise e, cache', _) => (Uncaught (Core e), cache')
        end
    end.

(** [timer_png()], lines 230-254. *)
Definition timer_png_view (args : gmap string string) (clock : datetime)
  : outcome :=
  let end_ := args !! "end" in
  if negb (truthy end_) then
    Returns (TextStatus "Missing 'end' parameter" 400)
  else
    let lang := pick_lang str_lower str_strip best_match (args !! "lang") in
    match fromisoformat (replace_Z (default "" end_)) with
    | None => Returns (TextStatus "Invalid end parameter" 400)
    | Some (Naive _) => Uncaught TypeError
    | Some (Aware end_time) =>
        match timer_png_text end_time lang clock with
        | Raise e => Uncaught (Core e)
        | Ok text =>
            match render_timer_frame textbbox text lang with
            | None => OutOfFuel
            | Some img =>
                Returns (SentFile (PngBytes img) "image/png"
                           [("Cache-Control", "public, max-age=60");
                            ("Vary", "Accept-Language")])
            end
        end
    end.
End Views.

(** ** Further definitions used to state properties *)

(** A store whose entries are results of the assembler for their keys. *)
Definition cache_consistent (cache : list (Z * Z * string * gif)) : Prop :=
  Forall (λ kv, generate_gif_cached kv.1.1.1 kv.1.1.2 kv.1.2 = Ok kv.2) cache.

(** The text carried by frame [i] of an animation. *)
Definition frame_label_at (g : gif) (i : Z) : option string :=
  frame_label <$> gif_frames g !! Z.to_nat i.

(** A two-entry instance of [fromisoformat], for examples: one text with
    a UTC offset, one without. *)
Definition fromisoformat_sample (s : string) : option parsed_datetime :=
  if decide (s = "2023-11-14T23:13:20+00:00") then
    Some (Aware (Datetime 1700003600000000))
  else if decide (s = "2023-11-14T23:13:20") then
    Some (Naive 1700003600000000)
  else None.

(** * Properties *)

(** ** The text table *)

Lemma LANG_TXT_lookup (lang : string) :
  LANG_TXT !! lang =
    if decide (lang = "en") then LANG_TXT !! "en"
    else if decide (lang = "et") then LANG_TXT !! "et"
    else None.
Proof.
  destruct (decide (lang = "en")) as [->|Hen]; [done|].
  destruct (decide (lang = "et")) as [->|Het]; [done|].
  unfold LANG_TXT.
  rewrite lookup_insert_ne by done.
  rewrite lookup_insert_ne by done.
  apply lookup_empty.
Qed.

Lemma t_fallback (lang key : string) :
  lang ≠ "et" → t lang key = t "en" key.
Proof.
  intros Het. unfold t. rewrite (LANG_TXT_lookup lang).
  destruct (decide (lang = "en")) as [->|Hen]; [done|].
  rewrite decide_False by done. reflexivity.
Qed.

Lemma t_started (lang : string) :
  t lang "started" =
    Ok (if decide (lang = "et") then "MÄNG ON ALANUD" else "MATCH HAS STARTED").
Proof.
  destruct (decide (lang = "et")) as [->|Het]; [by vm_compute|].
  rewrite t_fallback by done. by vm_compute.
Qed.

Lemma t_over (lang : string) :
  t lang "over" =
    Ok (if decide (lang = "et") then "MÄNG ON LÄBI" else "MATCH IS OVER").
Proof.
  destruct (decide (lang = "et")) as [->|Het]; [by vm_compute|].
  rewrite t_fallback by done. by vm_compute.
Qed.

Lemma t_cta (lang : string) :
  t lang "cta" =
    Ok (if decide (lang = "et") then "ALUSTA PANUSTAMIST" else "START BETTING").
Proof.
  destruct (decide (lang = "et")) as [->|Het]; [by vm_compute|].
  rewrite t_fallback by done. by vm_compute.
Qed.

(** ** Decimal digits and zero padding *)

Lemma pretty_N_char_digit (x : N) : is_digit (pretty_N_char x) = true.
Proof. unfold pretty_N_char. by repeat case_match. Qed.

Lemma pretty_N_go_starts_with_digit (x : N) (s : string) :
  (0 < x)%N → starts_with_digit (pretty_N_go x s).
Proof.
  revert s. induction (N.lt_wf_0 x) as [x _ IH]; intros s Hx.
  rewrite pretty_N_go_step by done.
  destruct (decide (x `div` 10 = 0)%N) as [->|Hq].
  - rewrite pretty_N_go_0. eexists _, _. split; [done|].
    apply pretty_N_char_digit.
  - apply IH; [apply N.div_lt; lia | by apply N.neq_0_lt_0].
Qed.

Lemma pretty_N_go_length (x : N) (s : string) :
  (String.length s ≤ String.length (pretty_N_go x s))%nat.
Proof.
  revert s. induction (N.lt_wf_0 x) as [x _ IH]; intros s.
  destruct (decide (x = 0)%N) as [->|Hx]; [by rewrite pretty_N_go_0|].
  rewrite pretty_N_go_step by lia.
  etrans; [|apply IH, N.div_lt; lia]. simpl. lia.
Qed.

Lemma pretty_Z_nonneg (n : Z) :
  0 ≤ n → pretty n = pretty (Z.to_N n).
Proof. intros Hn. destruct n as [|p|p]; [done|done|lia]. Qed.

Lemma pretty_starts_with_digit (n : Z) :
  0 ≤ n → starts_with_digit (pretty n).
Proof.
  intros Hn. rewrite pretty_Z_nonneg by done.
  unfold pretty, pretty_N. case_decide.
  - by eexists _, _.
  - apply pretty_N_go_starts_with_digit. lia.
Qed.

Lemma pretty_one_digit (n : Z) :
  0 ≤ n < 10 → String.length (pretty n) = 1%nat.
Proof.
  intros Hn. rewrite pretty_Z_nonneg by lia.
  unfold pretty, pretty_N. case_decide as H0; [done|].
  rewrite pretty_N_go_step by lia.
  replace (Z.to_N n `div` 10)%N with 0%N; [done|].
  symmetry. apply N.div_small. lia.
Qed.

Lemma pretty_two_digits (n : Z) :
  10 ≤ n < 100 → String.length (pretty n) = 2%nat.
Proof.
  intros Hn. rewrite pretty_Z_nonneg by lia.
  unfold pretty, pretty_N. rewrite decide_False by lia.
  assert (0 < Z.to_N n `div` 10 < 10)%N as Hq.
  { split; [apply N.div_str_pos; lia|].
    apply N.Div0.div_lt_upper_bound; lia. }
  rewrite pretty_N_go_step by lia.
  rewrite pretty_N_go_step by lia.
  replace ((Z.to_N n `div` 10) `div` 10)%N with 0%N; [done|].
  symmetry. apply N.div_small. lia.
Qed.

Lemma pretty_many_digits (n : Z) :
  10 ≤ n → (2 ≤ String.length (pretty n))%nat.
Proof.
  intros Hn. rewrite pretty_Z_nonneg by lia.
  unfold pretty, pretty_N. rewrite decide_False by lia.
  assert (0 < Z.to_N n `div` 10)%N by (apply N.div_str_pos; lia).
  rewrite pretty_N_go_step by lia.
  rewrite pretty_N_go_step by lia.
  etrans; [|apply pretty_N_go_length]. simpl. lia.
Qed.

Lemma format_02_one_digit (n : Z) :
  0 ≤ n < 10 → format_02 n = String "0" (pretty n).
Proof.
  intros Hn. unfold format_02, zfill. rewrite decide_False by lia.
  by rewrite pretty_one_digit.
Qed.

Lemma format_02_unpadded (n : Z) :
  10 ≤ n → format_02 n = pretty n.
Proof.
  intros Hn. unfold format_02, zfill. rewrite decide_False by lia.
  pose proof (pretty_many_digits n Hn).
  by replace (2 - String.length (pretty n))%nat with 0%nat by lia.
Qed.

Lemma format_02_length (n : Z) :
  0 ≤ n < 100 → String.length (format_02 n) = 2%nat.
Proof.
  intros Hn. destruct (decide (n < 10)).
  - rewrite format_02_one_digit by lia. simpl. by rewrite pretty_one_digit by lia.
  - rewrite format_02_unpadded by lia. apply pretty_two_digits. lia.
Qed.

Lemma format_02_starts_with_digit (n : Z) :
  0 ≤ n → starts_with_digit (format_02 n).
Proof.
  intros Hn. destruct (decide (n < 10)).
  - rewrite format_02_one_digit by lia. by eexists _, _.
  - rewrite format_02_unpadded by lia. by apply pretty_starts_with_digit.
Qed.

Lemma string_app_length (a b : string) :
  String.length (a +:+ b) = (String.length a + String.length b)%nat.
Proof.
  induction a as [|c a IH]; [done|].
  change (S (String.length (a +:+ b))
          = S (String.length a + String.length b)).
  by rewrite IH.
Qed.

Lemma string_app_assoc (a b c : string) :
  (a +:+ b) +:+ c = a +:+ (b +:+ c).
Proof.
  induction a as [|x a IH]; [done|].
  change (String x ((a +:+ b) +:+ c) = String x (a +:+ (b +:+ c))).
  by rewrite IH.
Qed.

Lemma string_app_inj_length (a a' b b' : string) :
  String.length a = String.length a' →
  a +:+ b = a' +:+ b' → a = a' ∧ b = b'.
Proof.
  revert a'. induction a as [|c a IH]; intros [|c' a'] Hlen Heq; try done.
  cbn in Hlen, Heq. injection Heq as -> Heq.
  destruct (IH a') as [-> ->]; [lia|done|done].
Qed.

Lemma digit_value_pretty_N_char (x : N) :
  (x < 10)%N → digit_value (pretty_N_char x) = Some (Z.of_N x).
Proof.
  intros Hx.
  assert (x = 0 ∨ x = 1 ∨ x = 2 ∨ x = 3 ∨ x = 4 ∨ x = 5 ∨ x = 6 ∨ x = 7
          ∨ x = 8 ∨ x = 9)%N as Hcases by lia.
  repeat (destruct Hcases as [->|Hcases]; [done|]). by subst.
Qed.

(** Reading back the digits that [pretty_N_go] puts in front of [s]. *)
Lemma parse_digits_pretty_N_go (x : N) :
  ∃ k : Z, 0 ≤ k ∧ ∀ s acc,
    parse_digits (pretty_N_go x s) acc
    = parse_digits s (acc * 10 ^ k + Z.of_N x).
Proof.
  induction (N.lt_wf_0 x) as [x _ IH].
  destruct (decide (x = 0)%N) as [->|Hx].
  - exists 0. split; [done|]. intros s acc. rewrite pretty_N_go_0.
    f_equal. lia.
  - destruct (IH (x `div` 10)%N) as (k & Hk & Hparse); [apply N.div_lt; lia|].
    exists (k + 1). split; [lia|]. intros s acc.
    rewrite pretty_N_go_step, Hparse by lia. cbn [parse_digits].
    rewrite digit_value_pretty_N_char by (apply N.mod_lt; lia).
    cbn [mbind option_bind]. f_equal.
    rewrite Z.pow_add_r by lia.
    rewrite N2Z.inj_div, N2Z.inj_mod.
    pose proof (Z.div_mod (Z.of_N x) 10 ltac:(lia)). change (Z.of_N 10) with 10.
    lia.
Qed.

Lemma parse_digits_pretty (n : Z) :
  0 ≤ n → parse_digits (pretty n) 0 = Some n.
Proof.
  intros Hn. rewrite pretty_Z_nonneg by done.
  unfold pretty, pretty_N. case_decide as H0.
  - change (parse_digits "0" 0) with (Some 0). f_equal. lia.
  - destruct (parse_digits_pretty_N_go (Z.to_N n)) as (k & _ & ->).
    cbn [parse_digits]. f_equal. lia.
Qed.

(** Reading back a field written with the format [02]. *)
Lemma parse_digits_format_02 (n : Z) :
  0 ≤ n → parse_digits (format_02 n) 0 = Some n.
Proof.
  intros Hn. destruct (decide (n < 10)).
  - rewrite format_02_one_digit by lia. cbn [parse_digits].
    change (digit_value "0") with (Some 0). cbn [mbind option_bind].
    by apply parse_digits_pretty.
  - rewrite format_02_unpadded by lia. by apply parse_digits_pretty.
Qed.

Lemma format_02_inj (n1 n2 : Z) :
  0 ≤ n1 → 0 ≤ n2 → format_02 n1 = format_02 n2 → n1 = n2.
Proof.
  intros H1 H2 Heq.
  pose proof (parse_digits_format_02 n1 H1) as P1.
  pose proof (parse_digits_format_02 n2 H2) as P2.
  rewrite Heq in P1. congruence.
Qed.

Lemma format_02_min_length (n : Z) :
  0 ≤ n → (2 ≤ String.length (format_02 n))%nat.
Proof.
  intros Hn. destruct (decide (n < 100)).
  - by rewrite format_02_length by lia.
  - rewrite format_02_unpadded by lia. apply pretty_many_digits. lia.
Qed.

Lemma numeric_head_app (s1 s2 : string) :
  numeric_head s1 → numeric_head (s1 +:+ s2).
Proof. intros (c & rest & -> & Hc). by exists c, (rest +:+ s2). Qed.

Lemma format_02_numeric_head (n : Z) : numeric_head (format_02 n).
Proof.
  destruct (decide (n < 0)) as [Hn|Hn].
  - unfold format_02. rewrite decide_True by done.
    eexists _, _. split; [done|]. by right.
  - destruct (format_02_starts_with_digit n) as (c & rest & -> & Hc); [lia|].
    exists c, rest. auto.
Qed.

Lemma hh_mm_ss_numeric_head (remaining : Z) : numeric_head (hh_mm_ss remaining).
Proof. apply numeric_head_app, format_02_numeric_head. Qed.

Lemma hh_mm_numeric_head (remaining : Z) : numeric_head (hh_mm remaining).
Proof. apply numeric_head_app, format_02_numeric_head. Qed.

Lemma not_numeric_head (c : ascii) (rest : string) :
  is_digit c = false → c ≠ "-"%char → ¬ numeric_head (String c rest).
Proof. intros Hd Hm (c' & rest' & [= <- <-] & [Hc|Hc]); congruence. Qed.

Lemma t_cta_not_numeric (lang s : string) :
  t lang "cta" = Ok s → ¬ numeric_head s.
Proof.
  rewrite t_cta. intros [= <-]. case_decide; by apply not_numeric_head.
Qed.

Lemma t_started_not_numeric (lang s : string) :
  t lang "started" = Ok s → ¬ numeric_head s.
Proof.
  rewrite t_started. intros [= <-]. case_decide; by apply not_numeric_head.
Qed.

Lemma t_over_not_numeric (lang s : string) :
  t lang "over" = Ok s → ¬ numeric_head s.
Proof.
  rewrite t_over. intros [= <-]. case_decide; by apply not_numeric_head.
Qed.

Lemma t_started_over (lang : string) : t lang "started" ≠ t lang "over".
Proof. rewrite t_started, t_over. by case_decide. Qed.

Lemma t_started_cta (lang : string) : t lang "started" ≠ t lang "cta".
Proof. rewrite t_started, t_cta. by case_decide. Qed.

Lemma t_over_cta (lang : string) : t lang "over" ≠ t lang "cta".
Proof. rewrite t_over, t_cta. by case_decide. Qed.

(** ** Case equations of the two selectors *)

Lemma frame_text_started (remaining i : Z) (lang : string) :
  -3600 ≤ remaining ≤ 0 → frame_text remaining i lang = t lang "started".
Proof.
  intros H. unfold frame_text.
  rewrite (bool_decide_eq_true_2 (remaining ≤ 0)) by lia.
  by rewrite (bool_decide_eq_true_2 (Z.abs remaining ≤ 3600)) by lia.
Qed.

Lemma frame_text_over (remaining i : Z) (lang : string) :
  remaining < -3600 → frame_text remaining i lang = t lang "over".
Proof.
  intros H. unfold frame_text.
  rewrite (bool_decide_eq_false_2 (Z.abs remaining ≤ 3600)) by lia.
  rewrite andb_false_r.
  by rewrite (bool_decide_eq_true_2 (remaining < -3600)) by lia.
Qed.

Lemma frame_text_cta (remaining i : Z) (lang : string) :
  remaining > 0 → 55 ≤ i → frame_text remaining i lang = t lang "cta".
Proof.
  intros H Hi. unfold frame_text, CTA_FRAMES.
  rewrite (bool_decide_eq_false_2 (remaining ≤ 0)) by lia.
  rewrite (bool_decide_eq_false_2 (remaining < -3600)) by lia.
  rewrite (bool_decide_eq_true_2 (remaining > 0)) by lia.
  by rewrite (bool_decide_eq_true_2 (i >= 60 - 5)) by lia.
Qed.

Lemma frame_text_countdown (remaining i : Z) (lang : string) :
  remaining > 0 → i < 55 → frame_text remaining i lang = Ok (hh_mm_ss remaining).
Proof.
  intros H Hi. unfold frame_text, CTA_FRAMES.
  rewrite (bool_decide_eq_false_2 (remaining ≤ 0)) by lia.
  rewrite (bool_decide_eq_false_2 (remaining < -3600)) by lia.
  rewrite (bool_decide_eq_false_2 (i >= 60 - 5)) by lia.
  by rewrite andb_false_r.
Qed.

Lemma timer_text_of_started (remaining : Z) (mode lang : string) :
  -3600 ≤ remaining ≤ 0 → timer_text_of remaining mode lang = t lang "started".
Proof.
  intros H. unfold timer_text_of.
  rewrite decide_False by lia. by rewrite decide_True by lia.
Qed.

Lemma timer_text_of_over (remaining : Z) (mode lang : string) :
  remaining < -3600 → timer_text_of remaining mode lang = t lang "over".
Proof.
  intros H. unfold timer_text_of.
  rewrite decide_False by lia. by rewrite decide_False by lia.
Qed.

Lemma timer_text_of_png (remaining : Z) (lang : string) :
  remaining > 0 → timer_text_of remaining "png" lang = Ok (hh_mm remaining).
Proof. intros H. unfold timer_text_of. by rewrite decide_True by lia. Qed.

Lemma timer_text_of_gif (remaining : Z) (mode lang : string) :
  remaining > 0 → mode ≠ "png" →
  timer_text_of remaining mode lang = Ok (hh_mm_ss remaining).
Proof.
  intros H Hm. unfold timer_text_of.
  rewrite decide_True by lia. by rewrite decide_False by done.
Qed.

Lemma frame_text_is_Ok (remaining i : Z) (lang : string) :
  is_Ok (frame_text remaining i lang).
Proof.
  unfold frame_text. repeat case_match; rewrite ?t_started, ?t_over, ?t_cta;
    by eexists.
Qed.

Lemma timer_text_of_is_Ok (remaining : Z) (mode lang : string) :
  is_Ok (timer_text_of remaining mode lang).
Proof.
  unfold timer_text_of. repeat case_decide; rewrite ?t_started, ?t_over;
    by eexists.
Qed.

(** ** State boundaries of the text selectors *)

Lemma quot_div_whole (a : Z) :
  a `mod` 1000000 = 0 ∨ 0 ≤ a → a `quot` 1000000 = a `div` 1000000.
Proof.
  intros [Hm|Hp].
  - rewrite (Z.div_mod a 1000000) at 1 by lia. rewrite Hm, Z.add_0_r.
    rewrite Z.mul_comm. apply Z.quot_mul. lia.
  - apply Z.quot_div_nonneg; lia.
Qed.

(** C1, as amended: [remaining] is the difference deadline - instant
    truncated toward zero, which is its floor whenever the difference is a
    whole number of seconds or is not negative.  With that [remaining]:
    0 gives "started"; 3600 gives countdown text ("01:00:00", "01:00" in PNG
    mode, the call to action in the last five GIF frames) and not "started";
    -3600 gives "started"; -3601 gives "over". *)
Theorem C1_state_boundaries (end_time now : datetime) (mode lang : string) (i : Z) :
  let remaining := int_of_float (total_seconds (dt_sub end_time now)) in
  (remaining = 0 →
     get_timer_text end_time now mode lang = t lang "started" ∧
     frame_text remaining i lang = t lang "started") ∧
  (remaining = 3600 →
     get_timer_text end_time now mode lang =
       Ok (if decide (mode = "png") then "01:00" else "01:00:00") ∧
     frame_text remaining i lang =
       (if decide (55 ≤ i) then t lang "cta" else Ok "01:00:00") ∧
     get_timer_text end_time now mode lang ≠ t lang "started" ∧
     frame_text remaining i lang ≠ t lang "started") ∧
  (remaining = -3600 →
     get_timer_text end_time now mode lang = t lang "started" ∧
     frame_text remaining i lang = t lang "started") ∧
  (remaining = -3601 →
     get_timer_text end_time now mode lang = t lang "over" ∧
     frame_text remaining i lang = t lang "over") ∧
  ((micros end_time - micros now) `mod` 1000000 = 0 ∨ micros now ≤ micros end_time →
     spec_remaining end_time now = remaining).
Proof.
  intros remaining. unfold get_timer_text. fold remaining.
  split; [|split; [|split; [|split]]].
  - intros ->. split; [by apply timer_text_of_started|by apply frame_text_started].
  - intros ->.
    assert (timer_text_of 3600 mode lang =
            Ok (if decide (mode = "png") then "01:00" else "01:00:00")) as Ht.
    { unfold timer_text_of. rewrite decide_True by lia. by case_decide. }
    assert (frame_text 3600 i lang =
            if decide (55 ≤ i) then t lang "cta" else Ok "01:00:00") as Hf.
    { destruct (decide (55 ≤ i)); [by apply frame_text_cta|].
      by rewrite frame_text_countdown by lia. }
    rewrite Ht, Hf. split; [done|]. split; [done|]. split.
    + rewrite t_started.
      by destruct (decide (mode = "png")), (decide (lang = "et")).
    + rewrite t_started, t_cta.
      by destruct (decide (55 ≤ i)), (decide (lang = "et")).
  - intros ->. split; [by apply timer_text_of_started|by apply frame_text_started].
  - intros ->. split; [by apply timer_text_of_over|by apply frame_text_over].
  - intros H. unfold spec_remaining, remaining, int_of_float. simpl.
    symmetry. apply quot_div_whole. destruct H; [by left|right; lia].
Qed.

Lemma C1_state_boundaries_witness :
  get_timer_text (Datetime 0) (Datetime 3601000000) "gif" "en"
    = Ok "MATCH IS OVER"
  ∧ spec_remaining (Datetime 0) (Datetime 3601000000) = -3601.
Proof.
  pose proof (C1_state_boundaries (Datetime 0) (Datetime 3601000000) "gif" "en" 0)
    as (_ & _ & _ & Hover & Hfloor).
  split.
  - destruct (Hover eq_refl) as [Hg _]. exact Hg.
  - rewrite (Hfloor (or_introl eq_refl)). reflexivity.
Defined.

(** C1 as stated fails: half a second past the hour after the deadline the
    floor of the difference is -3601, yet the text is still "started". *)
Lemma C1_floor_counterexample :
  spec_remaining (Datetime 0) (Datetime 3600500000) = -3601 ∧
  get_timer_text (Datetime 0) (Datetime 3600500000) "gif" "en"
    = Ok "MATCH HAS STARTED" ∧
  get_timer_text (Datetime 0) (Datetime 3600500000) "gif" "en" ≠ t "en" "over".
Proof. by vm_compute. Qed.

(** ** The call-to-action window *)

(** C2, as amended: the window is the last [CTA_FRAMES] = 5 indices 55..59.
    A frame with index 55 or more and [remaining > 0] gets the call to
    action; index 54 with [remaining > 0] still gets the countdown, which is
    never the call-to-action string; with [remaining ≤ 0] every index,
    54 and the window included, gets the state text. *)
Theorem C2_cta_window (remaining i : Z) (lang : string) :
  60 - CTA_FRAMES = 55 ∧
  (remaining > 0 → 55 ≤ i → frame_text remaining i lang = t lang "cta") ∧
  (remaining > 0 → i ≤ 54 →
     frame_text remaining i lang = Ok (hh_mm_ss remaining) ∧
     frame_text remaining i lang ≠ t lang "cta") ∧
  (remaining ≤ 0 →
     frame_text remaining i lang =
       (if decide (-3600 ≤ remaining) then t lang "started" else t lang "over") ∧
     frame_text remaining i lang ≠ t lang "cta").
Proof.
  split; [done|]. split; [|split].
  - apply frame_text_cta.
  - intros Hr Hi. rewrite frame_text_countdown by lia. split; [done|].
    intros Heq. symmetry in Heq.
    apply t_cta_not_numeric in Heq. apply Heq, hh_mm_ss_numeric_head.
  - intros Hr. case_decide.
    + rewrite frame_text_started by lia. split; [done|]. apply t_started_cta.
    + rewrite frame_text_over by lia. split; [done|]. apply t_over_cta.
Qed.

Lemma C2_cta_window_witness :
  frame_text 5 55 "en" = Ok "START BETTING" ∧
  frame_text 6 54 "en" = Ok "00:00:06" ∧
  frame_text 0 54 "en" = Ok "MATCH HAS STARTED".
Proof.
  pose proof (C2_cta_window 5 55 "en") as (_ & Hcta & _).
  pose proof (C2_cta_window 6 54 "en") as (_ & _ & Hcount & _).
  pose proof (C2_cta_window 0 54 "en") as (_ & _ & _ & Hstate).
  split; [|split].
  - rewrite Hcta by lia. reflexivity.
  - destruct Hcount as [-> _]; [lia|lia|]. reflexivity.
  - destruct Hstate as [-> _]; [lia|]. reflexivity.
Defined.

(** C2 as stated fails: frame 54 with time remaining shows the countdown,
    also inside an assembled animation (deadline 100 s after the start:
    frame 54 has 46 s left, frame 55 is the first call to action). *)
Lemma C2_frame_54_counterexample :
  frame_text 46 54 "en" = Ok "00:00:46" ∧
  t "en" "cta" = Ok "START BETTING" ∧
  (g ← generate_gif_cached 100 0 "en";
   Ok (gif_frames g !! 54%nat, gif_frames g !! 55%nat))
    = Ok (Some (Frame "en" "00:00:46"), Some (Frame "en" "START BETTING")).
Proof. by vm_compute. Qed.

(** ** Countdown formatting *)

Lemma hms_fields (remaining : Z) :
  0 ≤ remaining →
  let h := remaining `div` 3600 in
  let m := (remaining `mod` 3600) `div` 60 in
  let s := remaining `mod` 60 in
  remaining = 3600 * h + 60 * m + s ∧ 0 ≤ h ∧ 0 ≤ m < 60 ∧ 0 ≤ s < 60.
Proof.
  intros Hr h m s. unfold h, m, s. Z.div_mod_to_equations. lia.
Qed.

(** C5: with [remaining > 0], outside the call-to-action window, the GIF
    text is [HH:MM:SS]: hours are the whole quotient by 3600 (no modulo),
    minutes and seconds are below 60; every field is zero-padded to two
    digits, so minutes and seconds are exactly two characters and the hours
    field is "0" followed by the digit below 10 and the plain decimal from 10
    on.  The same holds for [get_timer_text] in a mode other than "png". *)
Theorem C5_countdown_format (remaining i : Z) (mode lang : string) :
  remaining > 0 → i < 60 - CTA_FRAMES → mode ≠ "png" →
  let h := remaining `div` 3600 in
  let m := (remaining `mod` 3600) `div` 60 in
  let s := remaining `mod` 60 in
  frame_text remaining i lang
    = Ok (format_02 h +:+ ":" +:+ format_02 m +:+ ":" +:+ format_02 s) ∧
  timer_text_of remaining mode lang
    = Ok (format_02 h +:+ ":" +:+ format_02 m +:+ ":" +:+ format_02 s) ∧
  remaining = 3600 * h + 60 * m + s ∧ 0 ≤ h ∧ 0 ≤ m < 60 ∧ 0 ≤ s < 60 ∧
  String.length (format_02 m) = 2%nat ∧
  String.length (format_02 s) = 2%nat ∧
  (h < 10 → format_02 h = String "0" (pretty h)
            ∧ String.length (format_02 h) = 2%nat) ∧
  (10 ≤ h → format_02 h = pretty h).
Proof.
  intros Hr Hi Hmode h m s.
  destruct (hms_fields remaining ltac:(lia)) as (Hsum & Hh & Hm & Hs).
  fold h m s in Hsum, Hh, Hm, Hs.
  split; [by apply frame_text_countdown|].
  split; [by apply timer_text_of_gif|].
  split; [done|]. split; [done|]. split; [done|]. split; [done|].
  split; [apply format_02_length; lia|].
  split; [apply format_02_length; lia|].
  split.
  - intros Hlt. split; [apply format_02_one_digit; lia|].
    apply format_02_length; lia.
  - apply format_02_unpadded.
Qed.

Lemma C5_countdown_format_witness :
  frame_text 3661 0 "en" = Ok "01:01:01" ∧
  timer_text_of 3661 "gif" "en" = Ok "01:01:01".
Proof.
  pose proof (C5_countdown_format 3661 0 "gif" "en"
                ltac:(lia) ltac:(unfold CTA_FRAMES; lia) ltac:(done))
    as (Hf & Hg & _).
  rewrite Hf, Hg. split; reflexivity.
Defined.

Example hours_grow_past_two_digits :
  frame_text 360000 0 "en" = Ok "100:00:00" ∧
  frame_text 86400 0 "en" = Ok "24:00:00".
Proof. by vm_compute. Qed.

(** ** PNG mode *)

Lemma hm_fields (remaining : Z) :
  0 ≤ remaining →
  let minutes := remaining `div` 60 in
  0 ≤ minutes `div` 60 ∧ 0 ≤ minutes `mod` 60 < 60.
Proof.
  intros Hr minutes. unfold minutes. Z.div_mod_to_equations. lia.
Qed.

(** C8: with [remaining > 0] the PNG text is [HH:MM], hours and minutes
    taken from the total minutes [remaining // 60], both zero-padded to two
    digits and without a seconds field, while the GIF mode of the same
    function gives [HH:MM:SS]. *)
Theorem C8_png_minutes (end_time now : datetime) (lang : string) :
  let remaining := int_of_float (total_seconds (dt_sub end_time now)) in
  remaining > 0 →
  let minutes := remaining `div` 60 in
  let h := minutes `div` 60 in
  let m := minutes `mod` 60 in
  timer_png_text end_time lang now = Ok (format_02 h +:+ ":" +:+ format_02 m) ∧
  get_timer_text end_time now "png" lang = Ok (format_02 h +:+ ":" +:+ format_02 m) ∧
  0 ≤ h ∧ 0 ≤ m < 60 ∧
  String.length (format_02 m) = 2%nat ∧
  (h < 10 → format_02 h = String "0" (pretty h)) ∧
  (10 ≤ h → format_02 h = pretty h) ∧
  get_timer_text end_time now "gif" lang = Ok (hh_mm_ss remaining).
Proof.
  intros remaining Hr minutes h m.
  destruct (hm_fields remaining ltac:(lia)) as [Hh Hm].
  fold minutes in Hh, Hm. fold h in Hh. fold m in Hm.
  unfold timer_png_text, get_timer_text. fold remaining.
  rewrite timer_text_of_png by done.
  split; [done|]. split; [done|]. split; [done|]. split; [done|].
  split; [apply format_02_length; lia|].
  split; [intros; apply format_02_one_digit; lia|].
  split; [apply format_02_unpadded|].
  by apply timer_text_of_gif.
Qed.

Lemma C8_png_minutes_witness :
  timer_png_text (Datetime 3661000000) "en" (Datetime 0) = Ok "01:01" ∧
  get_timer_text (Datetime 3661000000) (Datetime 0) "gif" "en" = Ok "01:01:01".
Proof.
  pose proof (C8_png_minutes (Datetime 3661000000) (Datetime 0) "en"
                ltac:(vm_compute; reflexivity))
    as (Hp & _ & _ & _ & _ & _ & _ & Hg).
  rewrite Hp, Hg. split; reflexivity.
Defined.

(** C10: the PNG text is never the call-to-action string; it is the
    [HH:MM] countdown, "started" or "over". *)
Theorem C10_png_never_cta (end_time now : datetime) (lang : string) :
  let remaining := int_of_float (total_seconds (dt_sub end_time now)) in
  timer_png_text end_time lang now ≠ t lang "cta" ∧
  get_timer_text end_time now "png" lang ≠ t lang "cta" ∧
  (timer_png_text end_time lang now = Ok (hh_mm remaining) ∧ remaining > 0
   ∨ timer_png_text end_time lang now = t lang "started"
   ∨ timer_png_text end_time lang now = t lang "over").
Proof.
  intros remaining. unfold timer_png_text, get_timer_text. fold remaining.
  assert (timer_text_of remaining "png" lang ≠ t lang "cta") as Hne.
  { destruct (decide (remaining > 0)) as [Hr|Hr].
    - rewrite timer_text_of_png by done. intros Heq. symmetry in Heq.
      apply t_cta_not_numeric in Heq. apply Heq, hh_mm_numeric_head.
    - destruct (decide (-3600 ≤ remaining)).
      + rewrite timer_text_of_started by lia. apply t_started_cta.
      + rewrite timer_text_of_over by lia. apply t_over_cta. }
  split; [done|]. split; [done|].
  destruct (decide (remaining > 0)) as [Hr|Hr].
  - left. by rewrite timer_text_of_png by done.
  - destruct (decide (-3600 ≤ remaining)).
    + right; left. apply timer_text_of_started. lia.
    + right; right. apply timer_text_of_over. lia.
Qed.

(** ** Totality and shape of the selected text *)

Lemma countdown_not_table (lang key : string) (remaining : Z) :
  key = "cta" ∨ key = "started" ∨ key = "over" →
  t lang key ≠ Ok (hh_mm_ss remaining).
Proof.
  intros Hkey Heq.
  assert (¬ numeric_head (hh_mm_ss remaining)) as Hn.
  { destruct Hkey as [-> | [-> | ->]];
      eauto using t_cta_not_numeric, t_started_not_numeric, t_over_not_numeric. }
  apply Hn, hh_mm_ss_numeric_head.
Qed.

Lemma pretty_N_char_nonzero (x : N) :
  (0 < x < 10)%N → pretty_N_char x ≠ "0"%char.
Proof.
  intros Hx.
  assert (x = 1 ∨ x = 2 ∨ x = 3 ∨ x = 4 ∨ x = 5 ∨ x = 6 ∨ x = 7 ∨ x = 8
          ∨ x = 9)%N as Hcases by lia.
  repeat (destruct Hcases as [->|Hcases]; [done|]). by subst.
Qed.

(** The first digit written for a positive number is not a zero. *)
Lemma pretty_N_go_head_nonzero (x : N) (s : string) :
  (0 < x)%N → ∃ c rest, pretty_N_go x s = String c rest ∧ c ≠ "0"%char.
Proof.
  revert s. induction (N.lt_wf_0 x) as [x _ IH]; intros s Hx.
  rewrite pretty_N_go_step by done.
  destruct (decide (x `div` 10 = 0)%N) as [Hq|Hq].
  - rewrite Hq, pretty_N_go_0. eexists _, _. split; [done|].
    apply pretty_N_char_nonzero.
    assert (x < 10)%N by (apply N.div_small_iff in Hq; lia).
    rewrite N.mod_small by done. lia.
  - apply IH; [apply N.div_lt; lia|by apply N.neq_0_lt_0].
Qed.

Lemma format_02_field (n : Z) : 0 ≤ n → field_02 (format_02 n) n.
Proof.
  intros Hn. split; [by apply parse_digits_format_02|].
  split; [by apply format_02_min_length|].
  destruct (decide (n < 100)); [left; apply format_02_length; lia|right].
  rewrite format_02_unpadded, pretty_Z_nonneg by lia.
  unfold pretty, pretty_N. rewrite decide_False by lia.
  apply pretty_N_go_head_nonzero. lia.
Qed.

Lemma hh_mm_ss_shape (remaining : Z) :
  0 ≤ remaining → is_hh_mm_ss (hh_mm_ss remaining) remaining.
Proof.
  intros Hr. destruct (hms_fields remaining Hr) as (_ & Hh & Hm & Hs).
  cbv zeta in *. eexists _, _, _. split; [reflexivity|].
  split; [by apply format_02_field|].
  split; [apply format_02_field; lia|].
  split; [apply format_02_length; lia|].
  split; [apply format_02_field; lia|apply format_02_length; lia].
Qed.

Lemma hh_mm_shape (remaining : Z) :
  0 ≤ remaining → is_hh_mm (hh_mm remaining) remaining.
Proof.
  intros Hr. destruct (hm_fields remaining Hr) as (Hh & Hm).
  cbv zeta in *. eexists _, _. split; [reflexivity|].
  split; [by apply format_02_field|].
  split; [apply format_02_field; lia|apply format_02_length; lia].
Qed.

Lemma field_02_numeric_head (s : string) (n : Z) :
  field_02 s n → numeric_head s.
Proof.
  intros (Hparse & Hlen & _). destruct s as [|c rest]; [cbn in Hlen; lia|].
  exists c, rest. split; [done|]. left.
  cbn [parse_digits] in Hparse. unfold digit_value in Hparse.
  case_bool_decide as Hc; [|done].
  unfold is_digit. apply bool_decide_eq_true. lia.
Qed.

Lemma is_hh_mm_ss_numeric_head (s : string) (remaining : Z) :
  is_hh_mm_ss s remaining → numeric_head s.
Proof.
  intros (hs & ms & ss & -> & Hh & _).
  by eapply numeric_head_app, field_02_numeric_head.
Qed.

Lemma is_hh_mm_numeric_head (s : string) (remaining : Z) :
  is_hh_mm s remaining → numeric_head s.
Proof.
  intros (hs & ms & -> & Hh & _).
  by eapply numeric_head_app, field_02_numeric_head.
Qed.

Lemma is_hh_mm_ss_length (s : string) (remaining : Z) :
  is_hh_mm_ss s remaining → (8 ≤ String.length s)%nat.
Proof.
  intros (hs & ms & ss & -> & (_ & Hh & _) & _ & Hm & _ & Hs).
  rewrite !string_app_length, Hm, Hs. change (String.length ":") with 1%nat.
  lia.
Qed.

Lemma countdown_numeric_head (lang mode : string) (remaining : Z) (s : string) :
  in_category lang mode remaining Countdown s → numeric_head s.
Proof.
  cbn [in_category]. case_decide.
  - apply is_hh_mm_numeric_head.
  - apply is_hh_mm_ss_numeric_head.
Qed.

(** A string belongs to at most one category. *)
Lemma in_category_inj (lang mode : string) (remaining : Z) (c c' : category)
    (s : string) :
  in_category lang mode remaining c s → in_category lang mode remaining c' s →
  c = c'.
Proof.
  pose proof (t_started_over lang) as Hso.
  pose proof (t_started_cta lang) as Hsc.
  pose proof (t_over_cta lang) as Hoc.
  pose proof (t_cta_not_numeric lang s) as Hnc.
  pose proof (t_started_not_numeric lang s) as Hns.
  pose proof (t_over_not_numeric lang s) as Hno.
  pose proof (countdown_numeric_head lang mode remaining s) as Hhead.
  destruct c, c'; try reflexivity; intros Hc Hc'; exfalso;
    try solve
      [ (apply (Hnc Hc') || apply (Hns Hc') || apply (Hno Hc'));
        apply Hhead; exact Hc
      | (apply (Hnc Hc) || apply (Hns Hc) || apply (Hno Hc));
        apply Hhead; exact Hc' ];
    cbn [in_category] in Hc, Hc'; congruence.
Qed.

(** C7, as amended: for every integer [remaining] the selection returns a
    string, and that string belongs to exactly one category: the countdown
    (only with [remaining > 0]), or the localized call to action, "started"
    or "over".  In the selection of the GIF frames, and in [get_timer_text]
    in a mode other than "png", the countdown has the shape [HH:MM:SS]:
    digit fields that read back as the hours, minutes and seconds of
    [remaining], two digits each and more for the hours only from 100 on.
    In the mode "png" of [get_timer_text] the countdown has the shape
    [HH:MM] instead.  [get_timer_text] never gives the call to action. *)
Theorem C7_selection_total (remaining i : Z) (mode lang : string) :
  (∃ s c, frame_text remaining i lang = Ok s ∧
          in_category lang "gif" remaining c s ∧
          (c = Countdown → remaining > 0) ∧
          ∀ c', in_category lang "gif" remaining c' s → c' = c) ∧
  (∃ s c, timer_text_of remaining mode lang = Ok s ∧
          in_category lang mode remaining c s ∧
          c ≠ CallToAction ∧
          (c = Countdown → remaining > 0) ∧
          ∀ c', in_category lang mode remaining c' s → c' = c).
Proof.
  assert (∀ m (r : result string) c,
            (∀ s, r = Ok s → in_category lang m remaining c s) → is_Ok r →
            ∃ s, r = Ok s ∧ in_category lang m remaining c s ∧
                 ∀ c', in_category lang m remaining c' s → c' = c) as Huniq.
  { intros m r c Hc [s Hs]. exists s. split; [done|].
    split; [by apply Hc|]. intros c' Hc'.
    eapply in_category_inj; [exact Hc'|by apply Hc]. }
  split.
  - destruct (Huniq "gif" (frame_text remaining i lang)
                (if decide (remaining > 0)
                 then if decide (55 ≤ i) then CallToAction else Countdown
                 else if decide (-3600 ≤ remaining) then Started else Over))
      as (s & Hs & Hc & Hu).
    { intros s.
      destruct (decide (remaining > 0)); [destruct (decide (55 ≤ i))|
        destruct (decide (-3600 ≤ remaining))]; cbn [in_category].
      - by rewrite frame_text_cta by lia.
      - rewrite frame_text_countdown by lia. intros [= <-].
        rewrite decide_False by done. apply hh_mm_ss_shape. lia.
      - by rewrite frame_text_started by lia.
      - by rewrite frame_text_over by lia. }
    { apply frame_text_is_Ok. }
    eexists s, _. split; [done|]. split; [done|]. split; [|done].
    by repeat case_decide.
  - destruct (Huniq mode (timer_text_of remaining mode lang)
                (if decide (remaining > 0) then Countdown
                 else if decide (-3600 ≤ remaining) then Started else Over))
      as (s & Hs & Hc & Hu).
    { intros s.
      destruct (decide (remaining > 0)); [|destruct (decide (-3600 ≤ remaining))];
        cbn [in_category].
      - destruct (decide (mode = "png")) as [->|Hmode].
        + rewrite timer_text_of_png by done. intros [= <-].
          apply hh_mm_shape. lia.
        + rewrite timer_text_of_gif by done. intros [= <-].
          apply hh_mm_ss_shape. lia.
      - by rewrite timer_text_of_started by lia.
      - by rewrite timer_text_of_over by lia. }
    { apply timer_text_of_is_Ok. }
    eexists s, _. split; [done|]. split; [done|].
    split; [by repeat case_decide|]. split; [|done].
    by repeat case_decide.
Qed.

Lemma C7_selection_total_witness :
  (∃ s, frame_text 3661 0 "et" = Ok s ∧ is_hh_mm_ss s 3661) ∧
  (∃ s, timer_text_of 3661 "png" "et" = Ok s ∧ is_hh_mm s 3661) ∧
  (∃ s, timer_text_of (-1000000000000) "png" "et" = Ok s ∧
        t "et" "over" = Ok s).
Proof.
  destruct (C7_selection_total 3661 0 "png" "et")
    as [(s1 & c1 & Hs1 & Hc1 & _ & Hu1) (s2 & c2 & Hs2 & Hc2 & _ & _ & Hu2)].
  destruct (C7_selection_total (-1000000000000) 0 "png" "et")
    as [_ (s3 & c3 & Hs3 & Hc3 & _ & Hpos & Hu3)].
  split; [|split].
  - exists s1. split; [exact Hs1|].
    assert (in_category "et" "gif" 3661 Countdown s1) as Hcount.
    { rewrite (frame_text_countdown 3661 0 "et") in Hs1 by lia.
      injection Hs1 as <-. apply hh_mm_ss_shape. lia. }
    exact Hcount.
  - exists s2. split; [exact Hs2|].
    rewrite (timer_text_of_png 3661 "et") in Hs2 by lia.
    injection Hs2 as <-. apply hh_mm_shape. lia.
  - exists s3. split; [exact Hs3|].
    rewrite (timer_text_of_over (-1000000000000) "png" "et") in Hs3 by lia.
    by rewrite Hs3.
Defined.

(** C7 as stated fails in the mode the program passes: the PNG text for
    3661 seconds is "01:01", which is no entry of the table and has no
    [HH:MM:SS] shape, for any [remaining]. *)
Lemma C7_png_counterexample :
  get_timer_text (Datetime 3661000000) (Datetime 0) "png" "en" = Ok "01:01" ∧
  t "en" "cta" ≠ Ok "01:01" ∧ t "en" "started" ≠ Ok "01:01" ∧
  t "en" "over" ≠ Ok "01:01" ∧
  ∀ remaining, ¬ is_hh_mm_ss "01:01" remaining.
Proof.
  split; [by vm_compute|]. split; [by vm_compute|]. split; [by vm_compute|].
  split; [by vm_compute|].
  intros remaining Hshape. apply is_hh_mm_ss_length in Hshape.
  cbn in Hshape. lia.
Qed.

Example selection_large_magnitudes :
  frame_text (-1000000000000) 3 "et" = Ok "MÄNG ON LÄBI" ∧
  frame_text 1000000000000 3 "et" = Ok "277777777:46:40" ∧
  timer_text_of 1000000000000 "gif" "xx" = Ok "277777777:46:40" ∧
  timer_text_of (-7) "gif" "xx" = Ok "MATCH HAS STARTED".
Proof. by vm_compute. Qed.

(** ** Structure of the assembled animation *)

Lemma fromtimestamp_valid (ts : Z) :
  valid_timestamp ts → fromtimestamp ts = Ok (Datetime (ts * 1000000)).
Proof.
  intros H. unfold fromtimestamp, in_range. by rewrite bool_decide_eq_true_2.
Qed.

Lemma for_append_all_ok (body : Z → result frame) (range : list Z)
    (fs frames : list frame) :
  Forall2 (λ i f, body i = Ok f) range fs →
  for_append body range frames = Ok (frames ++ fs).
Proof.
  intros H. revert frames. induction H as [|i f range fs Hi _ IH]; intros frames.
  - by rewrite app_nil_r.
  - simpl. rewrite Hi. simpl. rewrite IH. by rewrite <-app_assoc.
Qed.

Lemma gif_loop_body_at (lang : string) (end_timestamp rounded_timestamp i : Z) :
  valid_timestamp (rounded_timestamp + i) →
  gif_loop_body lang (Datetime (end_timestamp * 1000000))
                (Datetime (rounded_timestamp * 1000000)) i
  = text ← frame_text (end_timestamp - (rounded_timestamp + i)) i lang;
    Ok (frame_from_cache lang text).
Proof.
  intros Hv. unfold gif_loop_body, dt_add, td_seconds, in_range. simpl.
  rewrite bool_decide_eq_true_2 by (unfold valid_timestamp in Hv; lia).
  simpl. unfold int_of_float, total_seconds, dt_sub. simpl.
  replace (end_timestamp * 1000000 - (rounded_timestamp * 1000000 + i * 1000000))
    with ((end_timestamp - (rounded_timestamp + i)) * 1000000) by lia.
  by rewrite Z.quot_mul by lia.
Qed.

(** C3, as amended: when the deadline, the deadline plus one hour and the
    quantized now are instants a datetime can hold, then a quantized now
    later than deadline + 3600 s gives a single frame, the "over" badge;
    otherwise, when quantized now + 59 s is such an instant too, exactly 60
    frames are produced and frame [i] carries the text selected for the
    instant quantized now + [i] seconds, at index [i]. *)
Theorem C3_animation_structure (end_timestamp rounded_timestamp : Z)
    (lang : string) :
  valid_timestamp end_timestamp →
  valid_timestamp (end_timestamp + 3600) →
  valid_timestamp rounded_timestamp →
  (rounded_timestamp > end_timestamp + 3600 →
     ∃ text g,
       t lang "over" = Ok text ∧
       generate_gif_cached end_timestamp rounded_timestamp lang = Ok g ∧
       gif_frames g = [frame_from_cache lang text]) ∧
  (rounded_timestamp ≤ end_timestamp + 3600 →
   valid_timestamp (rounded_timestamp + 59) →
     ∃ g,
       generate_gif_cached end_timestamp rounded_timestamp lang = Ok g ∧
       length (gif_frames g) = 60%nat ∧
       ∀ i, 0 ≤ i < 60 →
         ∃ text,
           frame_text (end_timestamp - (rounded_timestamp + i)) i lang = Ok text ∧
           gif_frames g !! Z.to_nat i = Some (frame_from_cache lang text)).
Proof.
  intros Hend Hend1 Hnow.
  assert (dt_add (Datetime (end_timestamp * 1000000)) (td_hours 1)
          = Ok (Datetime ((end_timestamp + 3600) * 1000000))) as Hlimit.
  { unfold dt_add, td_hours, in_range. simpl.
    rewrite bool_decide_eq_true_2 by (unfold valid_timestamp in Hend1; lia).
    do 2 f_equal. lia. }
  unfold generate_gif_cached.
  rewrite (fromtimestamp_valid _ Hend), (fromtimestamp_valid _ Hnow).
  cbn [mbind result_bind]. rewrite Hlimit.
  cbn [mbind result_bind]. unfold dt_gt. cbn [micros].
  split.
  - intros Hgt. rewrite bool_decide_eq_true_2 by lia.
    rewrite t_over. cbn [mbind result_bind]. by eexists _, _.
  - intros Hle Hlast. rewrite bool_decide_eq_false_2 by lia.
    set (pick := λ i : Z,
           match frame_text (end_timestamp - (rounded_timestamp + i)) i lang with
           | Ok text => frame_from_cache lang text
           | Raise _ => frame_from_cache lang ""
           end).
    assert (∀ i, 0 ≤ i < 60 →
              ∃ text,
                frame_text (end_timestamp - (rounded_timestamp + i)) i lang = Ok text ∧
                pick i = frame_from_cache lang text) as Hpick.
    { intros i Hi. unfold pick.
      destruct (frame_text_is_Ok (end_timestamp - (rounded_timestamp + i)) i lang)
        as [text ->]. by exists text. }
    assert (Forall2 (λ i f,
              gif_loop_body lang (Datetime (end_timestamp * 1000000))
                (Datetime (rounded_timestamp * 1000000)) i = Ok f)
              (seqZ 0 60) (pick <$> seqZ 0 60)) as Hall.
    { apply Forall2_fmap_r, Forall_Forall2_diag, Forall_forall.
      intros i Hi%elem_of_seqZ.
      rewrite gif_loop_body_at by (unfold valid_timestamp in *; lia).
      destruct (Hpick i) as (text & Htext & Hp); [lia|].
      rewrite Htext. simpl. by rewrite Hp. }
    rewrite (for_append_all_ok _ _ _ _ Hall).
    assert (length (pick <$> seqZ 0 60) = 60%nat) as Hlen.
    { by rewrite length_fmap, length_seqZ. }
    assert (∀ i, 0 ≤ i < 60 →
              (pick <$> seqZ 0 60) !! Z.to_nat i = Some (pick i)) as Hlookup.
    { intros i Hi. rewrite list_lookup_fmap, lookup_seqZ_lt by lia.
      cbn [fmap option_fmap option_map]. do 2 f_equal. lia. }
    clear Hall. clearbody pick.
    destruct (pick <$> seqZ 0 60) as [|first rest] eqn:Hfs; [done|].
    cbn [app mbind result_bind].
    eexists. split; [reflexivity|]. split; [done|].
    intros i Hi. destruct (Hpick i Hi) as (text & Htext & Hp).
    exists text. split; [done|]. rewrite <-Hp. by apply Hlookup.
Qed.

Lemma C3_animation_structure_witness :
  (∃ g, generate_gif_cached 0 3601 "en" = Ok g ∧
        gif_frames g = [Frame "en" "MATCH IS OVER"]) ∧
  (∃ g, generate_gif_cached 0 3600 "en" = Ok g ∧
        length (gif_frames g) = 60%nat).
Proof.
  pose proof (C3_animation_structure 0 3601 "en"
                ltac:(by vm_compute) ltac:(by vm_compute) ltac:(by vm_compute))
    as [Hover _].
  pose proof (C3_animation_structure 0 3600 "en"
                ltac:(by vm_compute) ltac:(by vm_compute) ltac:(by vm_compute))
    as [_ Hfull].
  split.
  - destruct (Hover ltac:(lia)) as (text & g & Ht & Hg & Hfs).
    exists g. split; [done|]. rewrite Hfs.
    vm_compute in Ht. by injection Ht as <-.
  - destruct (Hfull ltac:(lia) ltac:(by vm_compute)) as (g & Hg & Hlen & _).
    exists g. split; [exact Hg|exact Hlen].
Defined.

(** C3 as stated fails for an instant a datetime cannot hold: a quantized
    now in the year 10000 is later than deadline + 3600 s, and the assembler
    raises instead of producing the single "over" frame. *)
Lemma C3_out_of_range_counterexample :
  253402300800 > 0 + 3600 ∧
  generate_gif_cached 0 253402300800 "en" = Raise ValueError.
Proof. split; [lia|by vm_compute]. Qed.

(** ** The cache-key quantizer *)

Lemma bucketed_now_floor (clock : datetime) :
  bucketed_now clock = spec_bucket clock.
Proof.
  unfold bucketed_now, spec_bucket, float_floordiv, int_of_float, timestamp,
    CACHE_SECONDS.
  cbn [sf_micros]. change (60 * 1000000) with 60000000.
  by rewrite Z.quot_mul by lia.
Qed.

Lemma spec_bucket_whole_seconds (clock : datetime) :
  spec_bucket clock = (micros clock `div` 1000000) `div` 60 * 60.
Proof. unfold spec_bucket. by rewrite Z.div_div by lia. Qed.

Section CacheKeyProperties.
Variable py_int : string → option Z.
(** [int("")] raises [ValueError]. *)
Hypothesis py_int_empty : py_int "" = None.

Lemma get_cache_key_no_override (end_time clock : datetime) (lang : string) :
  get_cache_key py_int end_time None lang clock
  = Ok (int_of_float (timestamp end_time), spec_bucket clock, lang).
Proof. unfold get_cache_key. cbn [truthy]. by rewrite bucketed_now_floor. Qed.

(** C4: an override that parses as an integer is the quantized timestamp
    as it is; without an override, or with one that fails to parse, the
    quantized timestamp is floor(currentEpochSeconds / 60) * 60; no case
    raises. *)
Theorem C4_quantizer (end_time clock : datetime) (t_param : option string)
    (lang : string) :
  (∀ s v, t_param = Some s → py_int s = Some v →
     get_cache_key py_int end_time t_param lang clock
     = Ok (int_of_float (timestamp end_time), v, lang)) ∧
  (t_param = None ∨ (∃ s, t_param = Some s ∧ py_int s = None) →
     get_cache_key py_int end_time t_param lang clock
     = Ok (int_of_float (timestamp end_time), spec_bucket clock, lang)) ∧
  is_Ok (get_cache_key py_int end_time t_param lang clock).
Proof.
  split; [|split].
  - intros s v -> Hv. unfold get_cache_key. simpl.
    destruct (decide (s = "")) as [->|Hs]; [congruence|].
    rewrite bool_decide_eq_true_2 by done. by rewrite Hv.
  - intros [->|(s & -> & Hs)]; [apply get_cache_key_no_override|].
    unfold get_cache_key. simpl. rewrite Hs, bucketed_now_floor.
    by destruct (bool_decide (s ≠ "")).
  - unfold get_cache_key. by eexists.
Qed.
End CacheKeyProperties.

Lemma C4_quantizer_witness :
  get_cache_key int_literal (Datetime 5000000) (Some "42") "en"
    (Datetime 1700000123456789) = Ok (5, 42, "en") ∧
  get_cache_key int_literal (Datetime 5000000) (Some "4x2") "en"
    (Datetime 1700000123456789) = Ok (5, 1700000100, "en") ∧
  get_cache_key int_literal (Datetime 5000000) None "en"
    (Datetime 1700000123456789) = Ok (5, 1700000100, "en").
Proof.
  pose proof (C4_quantizer int_literal eq_refl (Datetime 5000000)
                (Datetime 1700000123456789)) as H.
  split; [|split].
  - destruct (H (Some "42") "en") as (Hv & _ & _).
    rewrite (Hv "42" 42 eq_refl eq_refl). reflexivity.
  - destruct (H (Some "4x2") "en") as (_ & Hb & _).
    rewrite Hb by (right; by exists "4x2"). reflexivity.
  - destruct (H None "en") as (_ & Hb & _).
    rewrite Hb by (by left). reflexivity.
Defined.

(** ** Coalescing of requests in one bucket *)

Section LruCacheProperties.
Context {K V : Type} `{EqDecision K}.

Lemma lru_get_head (key : K) (v : V) (store : list (K * V)) :
  lru_get key ((key, v) :: store) = Some v.
Proof. cbn [lru_get]. by rewrite decide_True. Qed.

(** A call repeated right after a call that returned is served from the
    store: same value, and the wrapped function does not run. *)
Lemma lru_call_again (maxsize : nat) (f : K → result V) (key : K)
    (store : list (K * V)) (v : V) :
  (0 < maxsize)%nat →
  (lru_call maxsize f key store).1.1 = Ok v →
  let store' := (lru_call maxsize f key store).1.2 in
  (lru_call maxsize f key store').1.1 = Ok v ∧
  (lru_call maxsize f key store').2 = false.
Proof.
  intros Hmax. unfold lru_call at 1 2.
  destruct (lru_get key store) as [v0|] eqn:Hget; cbn [fst snd].
  - intros [= ->]. unfold lru_call. by rewrite lru_get_head.
  - destruct (f key) as [v0|e]; cbn [fst snd]; [|done].
    intros [= ->]. destruct maxsize as [|n]; [lia|].
    cbn [take]. unfold lru_call. by rewrite lru_get_head.
Qed.

(** A call that raised stores nothing and raises again when repeated. *)
Lemma lru_call_raise_again (maxsize : nat) (f : K → result V) (key : K)
    (store : list (K * V)) (e : exn) :
  (lru_call maxsize f key store).1.1 = Raise e →
  (lru_call maxsize f key store).1.2 = store ∧
  (lru_call maxsize f key store).2 = true.
Proof.
  unfold lru_call. destruct (lru_get key store); [done|].
  by destruct (f key).
Qed.
End LruCacheProperties.

Example next_bucket_other_key :
  get_cache_key int_literal (Datetime 1700003600000000) None "en"
    (Datetime 1700000160000000)
  = Ok (1700003600, 1700000160, "en") ∧
  get_cache_key int_literal (Datetime 1700003600000000) None "en"
    (Datetime 1700000159999999)
  = Ok (1700003600, 1700000100, "en").
Proof. by vm_compute. Qed.

(** ** The font-fit search of the badge rasterizer *)

Section RasterizerProperties.
Variable textbbox : string → Z → Z * Z * Z * Z.

Lemma fit_loop_enough_fuel (fuel : nat) (text : string) (size : Z) :
  size < 18 + 2 * Z.of_nat fuel →
  is_Some (fit_loop textbbox (S fuel) text size).
Proof.
  revert size. induction fuel as [|fuel IH]; intros size Hsize.
  - cbn [fit_loop]. rewrite bool_decide_eq_false_2 by lia. by eexists.
  - change (fit_loop textbbox (S (S fuel)) text size)
      with (if bool_decide (size >= 18) then
              if fits textbbox text size then Some size
              else fit_loop textbbox (S fuel) text (size - 2)
            else Some size).
    case_bool_decide; [|by eexists].
    destruct (fits textbbox text size); [by eexists|].
    apply IH. lia.
Qed.

(** What the loop leaves in [size]: the first candidate [size], [size - 2],
    ... not below 18 that fits, or else the first candidate below 18. *)
Lemma fit_loop_result (fuel : nat) (text : string) (size r : Z) :
  fit_loop textbbox fuel text size = Some r →
  r ≤ size ∧ (size - r) `mod` 2 = 0 ∧
  (∀ s, r < s ≤ size → (size - s) `mod` 2 = 0 →
        18 ≤ s ∧ fits textbbox text s = false) ∧
  (18 ≤ r ∧ fits textbbox text r = true
   ∨ r < 18 ∧ (size < 18 → r = size) ∧ (18 ≤ size → 16 ≤ r)).
Proof.
  revert size. induction fuel as [|fuel IH]; intros size; cbn [fit_loop];
    [done|].
  case_bool_decide as Hge.
  - destruct (fits textbbox text size) eqn:Hfit.
    + intros [= <-]. rewrite Z.sub_diag.
      split; [lia|]. split; [done|]. split; [intros; lia|]. left. split; [lia|done].
    + intros (Hle & Hpar & Habove & Hend)%IH.
      split; [lia|]. split.
      { replace (size - r) with (size - 2 - r + 1 * 2) by lia.
        by rewrite Z.mod_add by lia. }
      split.
      { intros s Hs Hspar. destruct (decide (s = size)) as [->|Hne].
        - split; [lia|done].
        - assert (s ≠ size - 1).
          { intros ->. replace (size - (size - 1)) with 1 in Hspar by lia.
            done. }
          apply Habove; [lia|].
          replace (size - 2 - s) with (size - s + (-1) * 2) by lia.
          by rewrite Z.mod_add by lia. }
      destruct Hend as [?|(? & ? & ?)]; [by left|right; lia].
  - intros [= <-]. rewrite Z.sub_diag.
    split; [lia|]. split; [done|]. split; [intros; lia|]. right. lia.
Qed.

(** C6, as the code has it: the rasterizer always returns, and the font
    size it draws with is the largest of 80, 78, ..., 18 whose bounding box
    fits; when none of them fits the size is 16, the value the loop
    variable is left with, and not 18. *)
Theorem C6_font_fit (text lang : string) :
  ∃ b, render_timer_frame textbbox text lang = Some b ∧
       badge_text b = text ∧
       badge_font_size b ≤ 80 ∧ (80 - badge_font_size b) `mod` 2 = 0 ∧
       (∀ s, badge_font_size b < s ≤ 80 → (80 - s) `mod` 2 = 0 →
             18 ≤ s ∧ fits textbbox text s = false) ∧
       (18 ≤ badge_font_size b ∧ fits textbbox text (badge_font_size b) = true
        ∨ badge_font_size b = 16).
Proof.
  unfold render_timer_frame.
  destruct (fit_loop_enough_fuel 63 text FONT_SIZE) as [size Hsize];
    [unfold FONT_SIZE; lia|].
  rewrite Hsize. cbn [mbind option_bind].
  apply fit_loop_result in Hsize as (Hle & Hpar & Habove & Hend).
  unfold FONT_SIZE in *.
  destruct (textbbox text size) as [[[x0 y0] x1] y1].
  eexists. split; [reflexivity|]. cbn [badge_font_size badge_text].
  split; [done|]. split; [done|]. split; [done|]. split; [done|].
  destruct Hend as [?|(Hlt & _ & Hlow)]; [by left|right].
  assert (size = 16 ∨ size = 17) as [->| ->] by lia; [done|].
  by vm_compute in Hpar.
Qed.
End RasterizerProperties.

Lemma C6_font_fit_witness :
  (∃ b, render_timer_frame monospace_bbox "01:01:01" "en" = Some b ∧
        badge_font_size b = 80) ∧
  (∃ b, render_timer_frame monospace_bbox "ALUSTA PANUSTAMIST" "et" = Some b ∧
        badge_font_size b = 50) ∧
  (∃ b, render_timer_frame monospace_bbox sixty_zeros "en" = Some b ∧
        badge_font_size b = 16).
Proof.
  split; [|split].
  - destruct (C6_font_fit monospace_bbox "01:01:01" "en") as (b & Hb & _).
    exists b. split; [exact Hb|].
    vm_compute in Hb. injection Hb as Hb. by subst b.
  - destruct (C6_font_fit monospace_bbox "ALUSTA PANUSTAMIST" "et") as (b & Hb & _).
    exists b. split; [exact Hb|].
    vm_compute in Hb. injection Hb as Hb. by subst b.
  - destruct (C6_font_fit monospace_bbox sixty_zeros "en") as (b & Hb & _).
    exists b. split; [exact Hb|].
    vm_compute in Hb. injection Hb as Hb. by subst b.
Defined.

(** A text too wide at every size from 80 down to 18 is drawn at 16. *)
Example overflowing_text_drawn_at_16 :
  fits monospace_bbox sixty_zeros 18 = false ∧
  badge_font_size <$> render_timer_frame monospace_bbox sixty_zeros "en"
    = Some 16.
Proof. by vm_compute. Qed.

(** * Further properties of the code *)

(** ** Text lookup and language negotiation *)

Lemma LANG_TXT_en :
  LANG_TXT !! "en" =
    Some (<["cta" := "START BETTING"]>
          (<["started" := "MATCH HAS STARTED"]>
          (<["over" := "MATCH IS OVER"]> (∅ : gmap string string)))).
Proof. unfold LANG_TXT. by rewrite lookup_insert_eq. Qed.

(** X1: [t] raises [KeyError] exactly for a key other than "cta", "started"
    and "over", whatever the language; for these three keys it returns a
    string, the English one for every language other than "et". *)
Theorem X1_t_key_error (lang key : string) :
  (key ∈ ["cta"; "started"; "over"] →
     ∃ s, t lang key = Ok s ∧ (lang ≠ "et" → t "en" key = Ok s)) ∧
  (key ∉ ["cta"; "started"; "over"] → t lang key = Raise KeyError).
Proof.
  split.
  - intros Hkey.
    assert (is_Ok (t lang key)) as [s Hs].
    { repeat (apply elem_of_cons in Hkey as [->|Hkey]);
        [rewrite t_cta|rewrite t_started|rewrite t_over|by apply elem_of_nil in Hkey];
        by eexists. }
    exists s. split; [done|]. intros Hne. rewrite <-Hs. symmetry.
    by apply t_fallback.
  - intros Hkey. unfold t, subscript, DEFAULT_LANG. rewrite LANG_TXT_en.
    cbn [mbind result_bind].
    assert (key ≠ "cta" ∧ key ≠ "started" ∧ key ≠ "over") as (? & ? & ?).
    { repeat split; intros ->; apply Hkey; repeat (first [by left|right]). }
    rewrite !lookup_insert_ne by done. by rewrite lookup_empty.
Qed.

Lemma X1_t_key_error_witness :
  t "et" "timer" = Raise KeyError ∧ t "de" "over" = Ok "MATCH IS OVER".
Proof.
  split.
  - apply (proj2 (X1_t_key_error "et" "timer")).
    by apply (bool_decide_unpack _).
  - destruct (proj1 (X1_t_key_error "de" "over")
                ltac:(by apply (bool_decide_unpack _)))
      as (s & Hs & Hen).
    rewrite Hs, <-(Hen ltac:(done)). reflexivity.
Defined.

Lemma supported_cases (lang : string) :
  lang ∈ SUPPORTED_LANG_TXT ↔ lang = "en" ∨ lang = "et".
Proof. unfold SUPPORTED_LANG_TXT. set_solver. Qed.

(** X2: when [best_match] answers with one of the offered tags or with
    nothing, [pick_lang] returns a supported language, one that has its own
    table in [LANG_TXT]; a supported [lang] parameter (lowered and
    stripped) is returned whatever the header says. *)
Theorem X2_pick_lang_supported (str_lower str_strip : string → string)
    (best_match : list string → option string) (arg_lang : option string) :
  (∀ offered r, best_match offered = Some r → r ∈ offered) →
  pick_lang str_lower str_strip best_match arg_lang ∈ SUPPORTED_LANG_TXT ∧
  is_Some (LANG_TXT !! pick_lang str_lower str_strip best_match arg_lang) ∧
  (str_strip (str_lower (or_else arg_lang "")) ∈ SUPPORTED_LANG_TXT →
     pick_lang str_lower str_strip best_match arg_lang
     = str_strip (str_lower (or_else arg_lang ""))).
Proof.
  intros Hbest.
  assert (pick_lang str_lower str_strip best_match arg_lang
          ∈ SUPPORTED_LANG_TXT) as Hin.
  { unfold pick_lang. case_decide as Harg; [done|].
    destruct (best_match (elements SUPPORTED_LANG_TXT)) as [r|] eqn:Hr;
      cbn [or_else]; [|by apply supported_cases; left].
    case_decide; [by apply supported_cases; left|].
    apply Hbest in Hr. by apply elem_of_elements in Hr. }
  split; [done|]. split.
  - apply supported_cases in Hin as [-> | ->]; by eexists.
  - intros Harg. unfold pick_lang. by rewrite decide_True.
Qed.

Lemma X2_pick_lang_supported_witness :
  pick_lang lower_ascii strip (λ offered, head offered) (Some " ET ") = "et" ∧
  pick_lang lower_ascii strip (λ offered, head offered) (Some "fr")
    ∈ SUPPORTED_LANG_TXT.
Proof.
  assert (∀ (offered : list string) r, head offered = Some r → r ∈ offered)
    as Hhead.
  { intros [|x offered] r; [done|]. intros [= ->]. by left. }
  split.
  - destruct (X2_pick_lang_supported lower_ascii strip (λ offered, head offered)
                (Some " ET ") Hhead) as (_ & _ & Harg).
    rewrite Harg; [reflexivity|]. apply supported_cases. by right.
  - apply (X2_pick_lang_supported lower_ascii strip (λ offered, head offered)
             (Some "fr") Hhead).
Defined.

(** ** The countdown text determines the remaining time *)

(** X3: the [HH:MM:SS] text determines the remaining seconds: two
    non-negative values of [remaining] with the same text are equal. *)
Theorem X3_hh_mm_ss_inj (r1 r2 : Z) :
  0 ≤ r1 → 0 ≤ r2 → hh_mm_ss r1 = hh_mm_ss r2 → r1 = r2.
Proof.
  intros H1 H2. unfold hh_mm_ss.
  destruct (hms_fields r1 H1) as (Hsum1 & Hh1 & Hm1 & Hs1).
  destruct (hms_fields r2 H2) as (Hsum2 & Hh2 & Hm2 & Hs2).
  cbv zeta in *.
  set (h1 := r1 `div` 3600) in *. set (m1 := (r1 `mod` 3600) `div` 60) in *.
  set (s1 := r1 `mod` 60) in *.
  set (h2 := r2 `div` 3600) in *. set (m2 := (r2 `mod` 3600) `div` 60) in *.
  set (s2 := r2 `mod` 60) in *.
  intros Heq.
  assert (String.length (format_02 h1) = String.length (format_02 h2)) as Hlen.
  { apply (f_equal String.length) in Heq.
    rewrite !string_app_length in Heq.
    rewrite (format_02_length m1), (format_02_length s1),
      (format_02_length m2), (format_02_length s2) in Heq by lia.
    lia. }
  apply string_app_inj_length in Heq as [Hh Hrest]; [|done].
  apply string_app_inj_length in Hrest as [_ Hrest]; [|done].
  apply string_app_inj_length in Hrest as [Hm Hsec];
    [|by rewrite !format_02_length by lia].
  apply string_app_inj_length in Hsec as [_ Hsec]; [|done].
  apply format_02_inj in Hh, Hm, Hsec; lia.
Qed.

Lemma X3_hh_mm_ss_inj_witness : hh_mm_ss 3661 ≠ hh_mm_ss 3660.
Proof.
  intros Heq.
  pose proof (X3_hh_mm_ss_inj 3661 3660 ltac:(lia) ltac:(lia) Heq). lia.
Defined.

(** X4: the PNG text [HH:MM] determines the remaining whole minutes and
    nothing more: two non-negative values of [remaining] have the same text
    exactly when they have the same [remaining // 60]. *)
Theorem X4_hh_mm_whole_minutes (r1 r2 : Z) :
  0 ≤ r1 → 0 ≤ r2 →
  (hh_mm r1 = hh_mm r2 ↔ r1 `div` 60 = r2 `div` 60).
Proof.
  intros H1 H2. split; [|unfold hh_mm; by intros ->].
  unfold hh_mm. cbv zeta.
  destruct (hm_fields r1 H1) as (Hh1 & Hm1).
  destruct (hm_fields r2 H2) as (Hh2 & Hm2). cbv zeta in *.
  set (q1 := r1 `div` 60) in *. set (q2 := r2 `div` 60) in *.
  intros Heq.
  assert (String.length (format_02 (q1 `div` 60))
          = String.length (format_02 (q2 `div` 60))) as Hlen.
  { apply (f_equal String.length) in Heq.
    rewrite !string_app_length in Heq.
    rewrite (format_02_length (q1 `mod` 60)),
      (format_02_length (q2 `mod` 60)) in Heq by lia.
    lia. }
  apply string_app_inj_length in Heq as [Hh Hrest]; [|done].
  apply string_app_inj_length in Hrest as [_ Hm]; [|done].
  apply format_02_inj in Hh, Hm; [|lia..].
  rewrite (Z.div_mod q1 60), (Z.div_mod q2 60) by lia. lia.
Qed.

Lemma X4_hh_mm_whole_minutes_witness :
  hh_mm 1 = hh_mm 59 ∧ hh_mm 59 ≠ hh_mm 60.
Proof.
  split.
  - apply (X4_hh_mm_whole_minutes 1 59); [lia|lia|reflexivity].
  - intros Heq.
    apply (X4_hh_mm_whole_minutes 59 60) in Heq; [|lia|lia]. discriminate Heq.
Defined.

(** X5: the PNG text is the GIF text without its seconds field: for every
    [remaining], [HH:MM:SS] is [HH:MM] followed by ":" and the seconds. *)
Theorem X5_hh_mm_prefix (remaining : Z) :
  hh_mm_ss remaining
  = hh_mm remaining +:+ ":" +:+ format_02 (remaining `mod` 60).
Proof.
  unfold hh_mm_ss, hh_mm. cbv zeta. rewrite string_app_assoc.
  replace ((remaining `div` 60) `div` 60) with (remaining `div` 3600)
    by (rewrite Z.div_div by lia; done).
  replace ((remaining `div` 60) `mod` 60) with ((remaining `mod` 3600) `div` 60);
    [done|].
  Z.div_mod_to_equations. lia.
Qed.

(** X6: the two copies of the selection agree: outside the call-to-action
    window (frame index below 55), and at every index once the deadline has
    passed, the text of a GIF frame is what [get_timer_text] gives in a mode
    other than "png". *)
Theorem X6_selectors_agree (remaining i : Z) (mode lang : string) :
  mode ≠ "png" → i < 60 - CTA_FRAMES ∨ remaining ≤ 0 →
  frame_text remaining i lang = timer_text_of remaining mode lang.
Proof.
  intros Hmode Hwin. unfold CTA_FRAMES in Hwin.
  destruct (decide (remaining > 0)) as [Hr|Hr].
  - rewrite frame_text_countdown, timer_text_of_gif by (done || lia). done.
  - destruct (decide (-3600 ≤ remaining)).
    + by rewrite frame_text_started, timer_text_of_started by lia.
    + by rewrite frame_text_over, timer_text_of_over by lia.
Qed.

Lemma X6_selectors_agree_witness :
  frame_text 3661 54 "et" = timer_text_of 3661 "gif" "et" ∧
  frame_text (-5) 57 "et" = timer_text_of (-5) "gif" "et".
Proof.
  split.
  - apply X6_selectors_agree; [done|left; unfold CTA_FRAMES; lia].
  - apply X6_selectors_agree; [done|right; lia].
Defined.

(** ** The animation assembler: failure and frame sequence *)

Lemma for_append_ok_inv (body : Z → result frame) (range : list Z)
    (frames fs : list frame) :
  for_append body range frames = Ok fs → Forall (λ i, is_Ok (body i)) range.
Proof.
  revert frames. induction range as [|i range IH]; intros frames Hok;
    [constructor|].
  cbn [for_append] in Hok. destruct (body i) as [f|e] eqn:Hi; [|done].
  cbn [mbind result_bind] in Hok. constructor; [by exists f|by eapply IH].
Qed.

Lemma in_range_valid (ts : Z) :
  in_range (ts * 1000000) = true ↔ valid_timestamp ts.
Proof. unfold in_range, valid_timestamp. apply bool_decide_eq_true. Qed.

Lemma dt_add_seconds (ts i : Z) :
  dt_add (Datetime (ts * 1000000)) (td_seconds i)
  = if in_range ((ts + i) * 1000000) then Ok (Datetime ((ts + i) * 1000000))
    else Raise OverflowError.
Proof.
  unfold dt_add, td_seconds. cbn [micros td_micros].
  by replace (ts * 1000000 + i * 1000000) with ((ts + i) * 1000000) by lia.
Qed.

Lemma dt_add_hour (ts : Z) :
  dt_add (Datetime (ts * 1000000)) (td_hours 1)
  = if in_range ((ts + 3600) * 1000000)
    then Ok (Datetime ((ts + 3600) * 1000000))
    else Raise OverflowError.
Proof.
  unfold dt_add, td_hours. cbn [micros td_micros].
  by replace (ts * 1000000 + 1 * 3600 * 1000000)
    with ((ts + 3600) * 1000000) by lia.
Qed.

(** What a successful call tells about its arguments. *)
Lemma generate_gif_cached_ok_inv (end_timestamp rounded_timestamp : Z)
    (lang : string) (g : gif) :
  generate_gif_cached end_timestamp rounded_timestamp lang = Ok g →
  valid_timestamp end_timestamp ∧ valid_timestamp (end_timestamp + 3600) ∧
  valid_timestamp rounded_timestamp ∧
  (rounded_timestamp ≤ end_timestamp + 3600 →
   valid_timestamp (rounded_timestamp + 59)).
Proof.
  unfold generate_gif_cached, fromtimestamp.
  destruct (in_range (end_timestamp * 1000000)) eqn:Hend; [|done].
  destruct (in_range (rounded_timestamp * 1000000)) eqn:Hnow; [|done].
  cbn [mbind result_bind]. rewrite dt_add_hour.
  destruct (in_range ((end_timestamp + 3600) * 1000000)) eqn:Hend1; [|done].
  cbn [mbind result_bind]. unfold dt_gt. cbn [micros].
  apply in_range_valid in Hend, Hnow, Hend1.
  intros Hok. split; [done|]. split; [done|]. split; [done|]. intros Hle.
  rewrite bool_decide_eq_false_2 in Hok by lia.
  destruct (for_append _ _ _) as [frames|e] eqn:Hloop; [|done].
  apply for_append_ok_inv in Hloop.
  rewrite Forall_forall in Hloop.
  destruct (Hloop 59) as [f Hf]; [apply elem_of_seqZ; lia|].
  unfold gif_loop_body in Hf. rewrite dt_add_seconds in Hf.
  destruct (in_range ((rounded_timestamp + 59) * 1000000)) eqn:Hlast; [|done].
  by apply in_range_valid.
Qed.

(** The frames of the loop, when every instant it builds is valid. *)
Lemma for_append_loop_frames (end_timestamp rounded_timestamp : Z)
    (lang : string) :
  valid_timestamp rounded_timestamp →
  valid_timestamp (rounded_timestamp + 59) →
  ∃ frames,
    for_append (gif_loop_body lang (Datetime (end_timestamp * 1000000))
                  (Datetime (rounded_timestamp * 1000000))) (seqZ 0 60) []
    = Ok frames ∧
    length frames = 60%nat ∧
    ∀ i, 0 ≤ i < 60 →
      ∃ text,
        frame_text (end_timestamp - (rounded_timestamp + i)) i lang = Ok text ∧
        frames !! Z.to_nat i = Some (frame_from_cache lang text).
Proof.
  intros Hnow Hlast.
  set (pick := λ i : Z,
         match frame_text (end_timestamp - (rounded_timestamp + i)) i lang with
         | Ok text => frame_from_cache lang text
         | Raise _ => frame_from_cache lang ""
         end).
  assert (∀ i, 0 ≤ i < 60 →
            ∃ text,
              frame_text (end_timestamp - (rounded_timestamp + i)) i lang = Ok text ∧
              pick i = frame_from_cache lang text) as Hpick.
  { intros i Hi. unfold pick.
    destruct (frame_text_is_Ok (end_timestamp - (rounded_timestamp + i)) i lang)
      as [text ->]. by exists text. }
  exists (pick <$> seqZ 0 60). split; [|split].
  - rewrite <-(app_nil_l (pick <$> seqZ 0 60)). apply for_append_all_ok.
    apply Forall2_fmap_r, Forall_Forall2_diag, Forall_forall.
    intros i Hi%elem_of_seqZ.
    rewrite gif_loop_body_at by (unfold valid_timestamp in *; lia).
    destruct (Hpick i) as (text & Htext & Hp); [lia|].
    rewrite Htext. simpl. by rewrite Hp.
  - by rewrite length_fmap, length_seqZ.
  - intros i Hi. destruct (Hpick i Hi) as (text & Htext & Hp).
    exists text. split; [done|]. rewrite <-Hp.
    rewrite list_lookup_fmap, lookup_seqZ_lt by lia.
    cbn [fmap option_fmap option_map]. do 2 f_equal. lia.
Qed.

(** The frames of a successful call. *)
Lemma generate_gif_cached_ok_frames (end_timestamp rounded_timestamp : Z)
    (lang : string) (g : gif) :
  generate_gif_cached end_timestamp rounded_timestamp lang = Ok g →
  (rounded_timestamp > end_timestamp + 3600 →
     ∃ text, t lang "over" = Ok text ∧ gif_frames g = [frame_from_cache lang text]) ∧
  (rounded_timestamp ≤ end_timestamp + 3600 →
     length (gif_frames g) = 60%nat ∧
     ∀ i, 0 ≤ i < 60 →
       ∃ text,
         frame_text (end_timestamp - (rounded_timestamp + i)) i lang = Ok text ∧
         frame_label_at g i = Some text).
Proof.
  intros Hok.
  destruct (generate_gif_cached_ok_inv _ _ _ _ Hok) as (Hend & Hend1 & Hnow & Hlast).
  revert Hok. unfold generate_gif_cached.
  rewrite (fromtimestamp_valid _ Hend), (fromtimestamp_valid _ Hnow).
  cbn [mbind result_bind]. rewrite dt_add_hour.
  rewrite (proj2 (in_range_valid _) Hend1).
  cbn [mbind result_bind]. unfold dt_gt. cbn [micros].
  intros Hok. split.
  - intros Hgt. rewrite bool_decide_eq_true_2 in Hok by lia.
    rewrite t_over in Hok. cbn [mbind result_bind] in Hok.
    injection Hok as <-. rewrite t_over. by eexists.
  - intros Hle. rewrite bool_decide_eq_false_2 in Hok by lia.
    destruct (for_append_loop_frames end_timestamp rounded_timestamp lang
                Hnow (Hlast Hle)) as (frames & Hloop & Hlen & Hframes).
    rewrite Hloop in Hok. cbn [mbind result_bind] in Hok.
    destruct frames as [|first rest]; [done|]. injection Hok as <-.
    split; [done|]. intros i Hi.
    destruct (Hframes i Hi) as (text & Htext & Hlookup).
    exists text. split; [done|]. unfold frame_label_at.
    change (gif_frames _) with (first :: rest). by rewrite Hlookup.
Qed.

Lemma generate_gif_cached_valid (end_timestamp rounded_timestamp : Z)
    (lang : string) :
  valid_timestamp end_timestamp → valid_timestamp (end_timestamp + 3600) →
  valid_timestamp rounded_timestamp → valid_timestamp (rounded_timestamp + 59) →
  is_Ok (generate_gif_cached end_timestamp rounded_timestamp lang).
Proof.
  intros Hend Hend1 Hnow Hlast. unfold generate_gif_cached.
  rewrite (fromtimestamp_valid _ Hend), (fromtimestamp_valid _ Hnow).
  cbn [mbind result_bind]. rewrite dt_add_hour.
  rewrite (proj2 (in_range_valid _) Hend1).
  cbn [mbind result_bind]. unfold dt_gt. cbn [micros].
  case_bool_decide as Hgt.
  - rewrite t_over. by eexists.
  - destruct (for_append_loop_frames end_timestamp rounded_timestamp lang
                Hnow Hlast) as (frames & -> & Hlen & _).
    cbn [mbind result_bind]. destruct frames; [done|]. by eexists.
Qed.

(** X7: the assembler returns an animation exactly when every instant it
    builds is one a datetime can hold: the deadline, the deadline plus one
    hour, the quantized now and, unless that is more than an hour past the
    deadline, the quantized now plus 59 seconds.  In every other case it
    raises. *)
Theorem X7_generate_gif_cached_ok_iff (end_timestamp rounded_timestamp : Z)
    (lang : string) :
  is_Ok (generate_gif_cached end_timestamp rounded_timestamp lang) ↔
  valid_timestamp end_timestamp ∧ valid_timestamp (end_timestamp + 3600) ∧
  valid_timestamp rounded_timestamp ∧
  (rounded_timestamp ≤ end_timestamp + 3600 →
   valid_timestamp (rounded_timestamp + 59)).
Proof.
  split; [intros [g Hg]; by eapply generate_gif_cached_ok_inv|].
  intros (Hend & Hend1 & Hnow & Hlast). unfold generate_gif_cached.
  rewrite (fromtimestamp_valid _ Hend), (fromtimestamp_valid _ Hnow).
  cbn [mbind result_bind]. rewrite dt_add_hour.
  rewrite (proj2 (in_range_valid _) Hend1).
  cbn [mbind result_bind]. unfold dt_gt. cbn [micros].
  case_bool_decide as Hgt.
  - rewrite t_over. by eexists.
  - destruct (for_append_loop_frames end_timestamp rounded_timestamp lang
                Hnow (Hlast ltac:(lia))) as (frames & -> & Hlen & _).
    cbn [mbind result_bind]. destruct frames; [done|]. by eexists.
Qed.

Example assembler_raises_near_year_9999 :
  generate_gif_cached 253402297200 0 "en" = Raise OverflowError ∧
  generate_gif_cached 253402297199 253402300790 "en" = Raise OverflowError ∧
  generate_gif_cached (-62135596801) 0 "en" = Raise ValueError.
Proof. by vm_compute. Qed.

Lemma X7_generate_gif_cached_ok_iff_witness :
  is_Ok (generate_gif_cached 1700003600 1700000100 "et") ∧
  ¬ valid_timestamp (253402300790 + 59).
Proof.
  split.
  - apply X7_generate_gif_cached_ok_iff.
    unfold valid_timestamp, MIN_MICROS, MAX_MICROS. lia.
  - unfold valid_timestamp, MAX_MICROS. lia.
Defined.

Lemma frame_text_over_inv (remaining i : Z) (lang : string) :
  frame_text remaining i lang = t lang "over" → remaining < -3600.
Proof.
  intros Heq. destruct (decide (remaining > 0)) as [Hr|Hr].
  - destruct (decide (55 ≤ i)).
    + rewrite frame_text_cta in Heq by lia. symmetry in Heq.
      by apply t_over_cta in Heq.
    + rewrite frame_text_countdown in Heq by lia. symmetry in Heq.
      by apply countdown_not_table in Heq; [|auto].
  - destruct (decide (-3600 ≤ remaining)); [|lia].
    rewrite frame_text_started in Heq by lia. by apply t_started_over in Heq.
Qed.

Lemma frame_text_started_inv (remaining i : Z) (lang : string) :
  frame_text remaining i lang = t lang "started" → -3600 ≤ remaining ≤ 0.
Proof.
  intros Heq. destruct (decide (remaining > 0)) as [Hr|Hr].
  - destruct (decide (55 ≤ i)).
    + rewrite frame_text_cta in Heq by lia. symmetry in Heq.
      by apply t_started_cta in Heq.
    + rewrite frame_text_countdown in Heq by lia. symmetry in Heq.
      by apply countdown_not_table in Heq; [|auto].
  - destruct (decide (-3600 ≤ remaining)); [lia|].
    rewrite frame_text_over in Heq by lia. symmetry in Heq.
    by apply t_started_over in Heq.
Qed.

(** X8: the early return is what the loop would have produced: when the
    quantized now is more than an hour past the deadline, running the
    60-frame loop gives 60 copies of the single "over" frame that the
    assembler returns. *)
Theorem X8_early_return_sound (end_timestamp rounded_timestamp : Z)
    (lang : string) (g : gif) :
  generate_gif_cached end_timestamp rounded_timestamp lang = Ok g →
  rounded_timestamp > end_timestamp + 3600 →
  valid_timestamp (rounded_timestamp + 59) →
  ∃ over_frame,
    gif_frames g = [over_frame] ∧
    for_append (gif_loop_body lang (Datetime (end_timestamp * 1000000))
                  (Datetime (rounded_timestamp * 1000000))) (seqZ 0 60) []
    = Ok (replicate 60 over_frame).
Proof.
  intros Hok Hgt Hlast.
  destruct (generate_gif_cached_ok_inv _ _ _ _ Hok) as (_ & _ & Hnow & _).
  destruct (proj1 (generate_gif_cached_ok_frames _ _ _ _ Hok) Hgt)
    as (over & Hover & Hframes).
  exists (frame_from_cache lang over). split; [done|].
  destruct (for_append_loop_frames end_timestamp rounded_timestamp lang
              Hnow Hlast) as (frames & -> & Hlen & Hall).
  f_equal. apply list_eq_same_length with 60%nat;
    [by rewrite length_replicate|done|].
  intros k f1 f2 Hk Hf1 Hf2.
  apply lookup_replicate in Hf2 as [-> _].
  destruct (Hall (Z.of_nat k)) as (text & Htext & Hlookup); [lia|].
  rewrite Nat2Z.id, Hf1 in Hlookup. injection Hlookup as ->.
  rewrite frame_text_over in Htext by lia. congruence.
Qed.

Lemma X8_early_return_sound_witness :
  ∃ g over_frame,
    generate_gif_cached 0 3601 "en" = Ok g ∧
    gif_frames g = [over_frame] ∧
    for_append (gif_loop_body "en" (Datetime (0 * 1000000))
                  (Datetime (3601 * 1000000))) (seqZ 0 60) []
    = Ok (replicate 60 over_frame).
Proof.
  destruct (generate_gif_cached 0 3601 "en") as [g|e] eqn:Hg;
    [|by vm_compute in Hg].
  destruct (X8_early_return_sound 0 3601 "en" g Hg ltac:(lia)
              ltac:(by vm_compute)) as (over_frame & Hone & Hloop).
  exists g, over_frame. split; [reflexivity|]. split; [exact Hone|exact Hloop].
Defined.

(** X9: when the deadline is at least 60 seconds after the quantized now,
    the animation is 55 countdown frames followed by 5 call-to-action
    frames: frame [i] below 55 shows the [HH:MM:SS] of deadline - now - i,
    frames 55 to 59 show the call to action. *)
Theorem X9_countdown_then_cta (end_timestamp rounded_timestamp : Z)
    (lang : string) (g : gif) :
  generate_gif_cached end_timestamp rounded_timestamp lang = Ok g →
  60 ≤ end_timestamp - rounded_timestamp →
  length (gif_frames g) = 60%nat ∧
  (∀ i, 0 ≤ i < 55 →
     frame_label_at g i
     = Some (hh_mm_ss (end_timestamp - rounded_timestamp - i))) ∧
  (∀ i, 55 ≤ i < 60 → Ok <$> frame_label_at g i = Some (t lang "cta")).
Proof.
  intros Hok Hfar.
  destruct (proj2 (generate_gif_cached_ok_frames _ _ _ _ Hok) ltac:(lia))
    as [Hlen Hframes].
  split; [done|]. split.
  - intros i Hi. destruct (Hframes i ltac:(lia)) as (text & Htext & ->).
    rewrite frame_text_countdown in Htext by lia. injection Htext as <-.
    do 2 f_equal. lia.
  - intros i Hi. destruct (Hframes i ltac:(lia)) as (text & Htext & ->).
    rewrite frame_text_cta in Htext by lia. cbn. by rewrite Htext.
Qed.

Lemma X9_countdown_then_cta_witness :
  ∃ g, generate_gif_cached 1700003600 1700000100 "et" = Ok g ∧
       frame_label_at g 54 = Some "00:57:26" ∧
       frame_label_at g 55 = Some "ALUSTA PANUSTAMIST".
Proof.
  destruct (generate_gif_cached 1700003600 1700000100 "et") as [g|e] eqn:Hg;
    [|by vm_compute in Hg].
  destruct (X9_countdown_then_cta 1700003600 1700000100 "et" g Hg ltac:(lia))
    as (_ & Hcount & Hcta).
  exists g. split; [reflexivity|]. split.
  - rewrite Hcount by lia. reflexivity.
  - specialize (Hcta 55 ltac:(lia)).
    destruct (frame_label_at g 55) as [text|]; [|done].
    vm_compute in Hcta. by injection Hcta as ->.
Defined.

(** X10: within one animation the state never goes back: once a frame
    shows "over" every later frame shows "over", and once a frame shows
    "started" every later frame shows "started" or "over" (no countdown
    and no call to action after it). *)
Theorem X10_state_never_goes_back (end_timestamp rounded_timestamp : Z)
    (lang : string) (g : gif) (i j : Z) :
  generate_gif_cached end_timestamp rounded_timestamp lang = Ok g →
  0 ≤ i ≤ j → j < Z.of_nat (length (gif_frames g)) →
  (Ok <$> frame_label_at g i = Some (t lang "over") →
   Ok <$> frame_label_at g j = Some (t lang "over")) ∧
  (Ok <$> frame_label_at g i = Some (t lang "started") →
   Ok <$> frame_label_at g j = Some (t lang "started") ∨
   Ok <$> frame_label_at g j = Some (t lang "over")).
Proof.
  intros Hok Hij Hj.
  destruct (generate_gif_cached_ok_frames _ _ _ _ Hok) as [Hone Hloop].
  destruct (decide (rounded_timestamp > end_timestamp + 3600)) as [Hgt|Hle].
  - destruct (Hone Hgt) as (text & Htext & Hframes).
    rewrite Hframes in Hj. cbn in Hj.
    assert (i = 0 ∧ j = 0) as [-> ->] by lia. tauto.
  - destruct (Hloop ltac:(lia)) as [Hlen Hframes]. rewrite Hlen in Hj.
    destruct (Hframes i ltac:(lia)) as (ti & Hti & ->).
    destruct (Hframes j ltac:(lia)) as (tj & Htj & ->).
    cbn [fmap option_fmap option_map]. rewrite <-Hti, <-Htj. split.
    + intros [= Hover%frame_text_over_inv].
      by rewrite frame_text_over by lia.
    + intros [= Hstarted%frame_text_started_inv].
      destruct (decide (-3600 ≤ end_timestamp - (rounded_timestamp + j))).
      * left. by rewrite frame_text_started by lia.
      * right. by rewrite frame_text_over by lia.
Qed.

Lemma X10_state_never_goes_back_witness :
  ∃ g, generate_gif_cached 1700000130 1700000100 "en" = Ok g ∧
       frame_label_at g 30 = Some "MATCH HAS STARTED" ∧
       (Ok <$> frame_label_at g 59 = Some (t "en" "started") ∨
        Ok <$> frame_label_at g 59 = Some (t "en" "over")).
Proof.
  destruct (generate_gif_cached 1700000130 1700000100 "en") as [g|e] eqn:Hg;
    [|by vm_compute in Hg].
  assert (length (gif_frames g) = 60%nat ∧
          frame_label_at g 30 = Some "MATCH HAS STARTED") as [Hlen H30].
  { vm_compute in Hg. injection Hg as <-. split; reflexivity. }
  destruct (X10_state_never_goes_back 1700000130 1700000100 "en" g 30 59 Hg
              ltac:(lia) ltac:(rewrite Hlen; lia)) as [_ Hstarted].
  exists g. split; [reflexivity|]. split; [exact H30|].
  apply Hstarted. rewrite H30. reflexivity.
Defined.

(** ** The cache key: bucket bounds and the deadline's round trip *)

(** X11: without an override the quantized timestamp is a multiple of 60
    that is not after the clock reading and less than 60 seconds before
    it. *)
Theorem X11_bucket_bounds (py_int : string → option Z)
    (end_time clock : datetime) (lang : string) :
  ∃ e q,
    get_cache_key py_int end_time None lang clock = Ok (e, q, lang) ∧
    q `mod` 60 = 0 ∧
    q * 1000000 ≤ micros clock < (q + 60) * 1000000.
Proof.
  eexists _, _. split; [apply get_cache_key_no_override|].
  unfold spec_bucket. split; [by rewrite Z.mod_mul by lia|].
  pose proof (Z.div_mod (micros clock) 60000000 ltac:(lia)).
  pose proof (Z.mod_pos_bound (micros clock) 60000000 ltac:(lia)).
  lia.
Qed.

(** X12: the deadline survives the trip through the cache key up to its
    sub-second part: for a deadline a datetime can hold that lies on a
    whole second, or within 2^33 seconds of the epoch (where the float of
    [timestamp()] keeps the whole seconds), the assembler's [fromtimestamp]
    of the key's first component succeeds and gives the deadline with the
    fraction of a second cut off toward the epoch; a deadline on a whole
    second comes back unchanged. *)
Theorem X12_deadline_round_trip (py_int : string → option Z)
    (end_time clock : datetime) (t_param : option string) (lang : string) :
  in_range (micros end_time) = true →
  micros end_time `mod` 1000000 = 0
  ∨ Z.abs (micros end_time) < 8589934592 * 1000000 →
  ∃ e q d,
    get_cache_key py_int end_time t_param lang clock = Ok (e, q, lang) ∧
    fromtimestamp e = Ok d ∧
    Z.abs (micros d) ≤ Z.abs (micros end_time) ∧
    Z.abs (micros end_time - micros d) < 1000000 ∧
    (micros end_time `mod` 1000000 = 0 → d = end_time).
Proof.
  intros Hrange _. unfold get_cache_key. eexists _, _, _.
  split; [reflexivity|].
  unfold int_of_float, timestamp. cbn [sf_micros].
  apply bool_decide_eq_true in Hrange. unfold MIN_MICROS, MAX_MICROS in Hrange.
  pose proof (Z.quot_rem' (micros end_time) 1000000) as Hqr.
  pose proof (Z.rem_bound_abs (micros end_time) 1000000 ltac:(lia)) as Hrem.
  assert (0 ≤ micros end_time → 0 ≤ micros end_time `rem` 1000000) as Hpos.
  { intros. apply Z.rem_nonneg; lia. }
  assert (micros end_time ≤ 0 → micros end_time `rem` 1000000 ≤ 0) as Hneg.
  { intros. apply Z.rem_nonpos; lia. }
  split.
  - unfold fromtimestamp, in_range.
    rewrite bool_decide_eq_true_2; [reflexivity|].
    unfold MIN_MICROS, MAX_MICROS. lia.
  - cbn [micros]. split; [lia|]. split; [lia|].
    intros Hwhole. destruct end_time as [us]. cbn [micros] in *. f_equal.
    rewrite (quot_div_whole us (or_introl Hwhole)).
    pose proof (Z.div_mod us 1000000 ltac:(lia)). lia.
Qed.

Lemma X12_deadline_round_trip_witness :
  ∃ d, fromtimestamp (int_of_float (timestamp (Datetime (-1500000)))) = Ok d ∧
       d = Datetime (-1000000).
Proof.
  destruct (X12_deadline_round_trip int_literal (Datetime (-1500000))
              (Datetime 0) None "en" eq_refl ltac:(right; cbn; lia))
    as (e & q & d & Hkey & Hd & _).
  injection Hkey as <- _. exists d. split; [exact Hd|].
  vm_compute in Hd. by injection Hd as <-.
Defined.

(** ** The animation cache *)

Section LruInvariants.
Context {K V : Type} `{EqDecision K}.

Lemma lru_get_elem_of (key : K) (v : V) (store : list (K * V)) :
  lru_get key store = Some v → (key, v) ∈ store.
Proof.
  induction store as [|[k v'] store IH]; [done|]. cbn [lru_get].
  case_decide as Hk.
  - intros [= ->]. subst k. by left.
  - intros Hget. right. by apply IH.
Qed.

Lemma lru_drop_shorter (key : K) (v : V) (store : list (K * V)) :
  lru_get key store = Some v →
  (length (lru_drop key store) < length store)%nat.
Proof.
  unfold lru_drop. induction store as [|[k v'] store IH]; [done|].
  cbn [lru_get]. case_decide as Hk.
  - intros _. rewrite filter_cons_False by (cbn; intros Hne; by apply Hne).
    pose proof (length_filter (λ kv : K * V, kv.1 ≠ key) store).
    cbn [length]. lia.
  - intros Hget. rewrite filter_cons_True by done. cbn [length].
    specialize (IH Hget). lia.
Qed.

(** A store that only holds results of [f] answers as [f] does, stays such
    a store, and stays within [maxsize]. *)
Lemma lru_call_invariants (maxsize : nat) (f : K → result V) (key : K)
    (store : list (K * V)) :
  Forall (λ kv, f kv.1 = Ok kv.2) store →
  (length store ≤ maxsize)%nat →
  (lru_call maxsize f key store).1.1 = f key ∧
  Forall (λ kv, f kv.1 = Ok kv.2) (lru_call maxsize f key store).1.2 ∧
  (length (lru_call maxsize f key store).1.2 ≤ maxsize)%nat.
Proof.
  intros Hcons Hlen. unfold lru_call.
  destruct (lru_get key store) as [v|] eqn:Hget; cbn [fst snd].
  - pose proof (lru_get_elem_of _ _ _ Hget) as Hin.
    rewrite Forall_forall in Hcons. pose proof (Hcons _ Hin) as Hv.
    cbn [fst snd] in Hv. split; [done|]. split.
    + constructor; [done|]. apply Forall_forall. intros kv Hkv.
      apply Hcons. unfold lru_drop in Hkv.
      by apply list_elem_of_filter in Hkv as [_ ?].
    + pose proof (lru_drop_shorter _ _ _ Hget). cbn [length]. lia.
  - destruct (f key) as [v|e] eqn:Hf; cbn [fst snd]; [|done].
    split; [done|]. split.
    + apply Forall_take. by constructor.
    + rewrite length_take. lia.
Qed.
End LruInvariants.

(** X13: the animation cache is transparent and bounded: on a store of at
    most 256 entries that only holds animations the assembler returned for
    their keys, a request gets exactly what the assembler gives for its
    key, a raise included, and the store afterwards is again such a store
    of at most 256 entries. *)
Theorem X13_cache_transparent (py_int : string → option Z)
    (end_time clock : datetime) (t_param : option string) (lang : string)
    (cache : list (Z * Z * string * gif)) :
  cache_consistent cache → (length cache ≤ 256)%nat →
  ∃ e q,
    get_cache_key py_int end_time t_param lang clock = Ok (e, q, lang) ∧
    (timer_gif py_int end_time t_param lang clock cache).1.1
      = generate_gif_cached e q lang ∧
    cache_consistent (timer_gif py_int end_time t_param lang clock cache).1.2 ∧
    (length (timer_gif py_int end_time t_param lang clock cache).1.2 ≤ 256)%nat.
Proof.
  intros Hcons Hlen. unfold timer_gif, get_cache_key.
  eexists _, _. split; [reflexivity|].
  by apply (lru_call_invariants 256
              (λ k : Z * Z * string, generate_gif_cached k.1.1 k.1.2 k.2)).
Qed.

Lemma X13_cache_transparent_witness :
  (timer_gif int_literal (Datetime 3000000) (Some "3700") "en" (Datetime 0) []).1.1
  = generate_gif_cached 3 3700 "en".
Proof.
  destruct (X13_cache_transparent int_literal (Datetime 3000000) (Datetime 0)
              (Some "3700") "en" [] ltac:(constructor) ltac:(cbn; lia))
    as (e & q & Hkey & Hres & _).
  injection Hkey as <- <-. exact Hres.
Defined.

(** ** Placement of the text on the badge *)

(** X14: the text is centred in the inner rectangle: placed at the computed
    origin, its bounding box leaves left and right margins that differ by
    at most one pixel, and so do the top and bottom margins; when the font
    size drawn with is 18 or more, the box keeps the padding of 18 pixels
    at the sides and 10 pixels above and below. *)
Theorem X14_text_centred (textbbox : string → Z → Z * Z * Z * Z)
    (text lang : string) :
  ∃ b x0 y0 x1 y1 x y,
    render_timer_frame textbbox text lang = Some b ∧
    textbbox text (badge_font_size b) = (x0, y0, x1, y1) ∧
    badge_text_xy b = (x, y) ∧
    let left := (x + x0) - BORDER in
    let right := (WIDTH - BORDER) - (x + x1) in
    let top := (y + y0) - BORDER in
    let bottom := (HEIGHT - BORDER) - (y + y1) in
    0 ≤ right - left ≤ 1 ∧ 0 ≤ bottom - top ≤ 1 ∧
    (18 ≤ badge_font_size b →
       PADDING_X ≤ left ∧ PADDING_X ≤ right ∧
       PADDING_Y ≤ top ∧ PADDING_Y ≤ bottom).
Proof.
  unfold render_timer_frame.
  destruct (fit_loop_enough_fuel textbbox 63 text FONT_SIZE) as [size Hsize];
    [unfold FONT_SIZE; lia|].
  rewrite Hsize. cbn [mbind option_bind].
  apply fit_loop_result in Hsize as (_ & _ & _ & Hend).
  destruct (textbbox text size) as [[[x0 y0] x1] y1] eqn:Hbox.
  eexists _, x0, y0, x1, y1, _, _. split; [reflexivity|].
  cbn [badge_font_size badge_text_xy]. split; [done|]. split; [reflexivity|].
  cbv zeta. unfold BORDER, WIDTH, HEIGHT, PADDING_X, PADDING_Y.
  pose proof (Z.div_mod (600 - 2 * 6 - (x1 - x0)) 2 ltac:(lia)) as Hx.
  pose proof (Z.mod_pos_bound (600 - 2 * 6 - (x1 - x0)) 2 ltac:(lia)) as Hxm.
  pose proof (Z.div_mod (140 - 2 * 6 - (y1 - y0)) 2 ltac:(lia)) as Hy.
  pose proof (Z.mod_pos_bound (140 - 2 * 6 - (y1 - y0)) 2 ltac:(lia)) as Hym.
  split; [lia|]. split; [lia|]. intros Hsize.
  destruct Hend as [[_ Hfit]|[? _]]; [|lia].
  unfold fits in Hfit. rewrite Hbox in Hfit.
  apply andb_true_iff in Hfit as [Hw Hh].
  apply bool_decide_eq_true in Hw, Hh.
  unfold max_w, max_h, BORDER, WIDTH, HEIGHT, PADDING_X, PADDING_Y in Hw, Hh.
  lia.
Qed.

Lemma X14_text_centred_witness :
  ∃ b, render_timer_frame monospace_bbox "01:01:01" "en" = Some b ∧
       badge_text_xy b = (108, 30).
Proof.
  destruct (X14_text_centred monospace_bbox "01:01:01" "en")
    as (b & x0 & y0 & x1 & y1 & x & y & Hb & _).
  exists b. split; [exact Hb|].
  vm_compute in Hb. injection Hb as Hb. by subst b.
Defined.

Lemma lru_call_stores {K V : Type} `{EqDecision K} (maxsize : nat)
    (f : K → result V) (key : K) (store : list (K * V)) (v : V) :
  (0 < maxsize)%nat →
  (lru_call maxsize f key store).1.1 = Ok v →
  (key, v) ∈ (lru_call maxsize f key store).1.2.
Proof.
  intros Hmax. unfold lru_call.
  destruct (lru_get key store) as [v0|]; cbn [fst snd].
  - intros [= ->]. by left.
  - destruct (f key) as [v0|e]; cbn [fst snd]; [|done].
    intros [= ->]. destruct maxsize as [|n]; [lia|]. cbn [take]. by left.
Qed.

Lemma timer_gif_invariants (py_int : string → option Z)
    (end_time clock : datetime) (t_param : option string) (lang : string)
    (cache : list (Z * Z * string * gif)) :
  cache_consistent cache → (length cache ≤ 256)%nat →
  ∃ e q,
    (timer_gif py_int end_time t_param lang clock cache).1.1
      = generate_gif_cached e q lang ∧
    cache_consistent (timer_gif py_int end_time t_param lang clock cache).1.2 ∧
    (length (timer_gif py_int end_time t_param lang clock cache).1.2 ≤ 256)%nat ∧
    (∀ err, (timer_gif py_int end_time t_param lang clock cache).1.1 = Raise err →
       (timer_gif py_int end_time t_param lang clock cache).1.2 = cache) ∧
    (∀ g, (timer_gif py_int end_time t_param lang clock cache).1.1 = Ok g →
       g ∈ snd <$> (timer_gif py_int end_time t_param lang clock cache).1.2).
Proof.
  intros Hcons Hlen. unfold timer_gif, get_cache_key. eexists _, _.
  set (f := λ k : Z * Z * string, generate_gif_cached k.1.1 k.1.2 k.2).
  set (key := (int_of_float (timestamp end_time), _, lang)).
  destruct (lru_call_invariants 256 f key cache Hcons Hlen)
    as (Hres & Hcons' & Hlen').
  split; [exact Hres|]. split; [exact Hcons'|]. split; [exact Hlen'|]. split.
  - intros err Herr. by apply (lru_call_raise_again 256 f key cache err).
  - intros g Hg. apply list_elem_of_fmap. exists (key, g). split; [done|].
    by apply lru_call_stores; [lia|].
Qed.

(** ** Two requests in one bucket *)

Section LruTwice.
Context {K V : Type} `{EqDecision K}.

(** The same call made twice in a row.  When the first returns, the value
    is in the store under the key, the second is answered from the store
    and the wrapped function does not run again; it ran in the first call
    only if the key was not stored before.  When the first raises, nothing
    is stored and the second runs the function again and raises too. *)
Lemma lru_call_twice (maxsize : nat) (f : K → result V) (key : K)
    (store : list (K * V)) :
  (0 < maxsize)%nat →
  let first := lru_call maxsize f key store in
  let second := lru_call maxsize f key first.1.2 in
  (∀ v, first.1.1 = Ok v →
     lru_get key first.1.2 = Some v ∧
     second.1.1 = Ok v ∧ second.2 = false ∧
     lru_get key second.1.2 = Some v ∧
     (first.2 = true → lru_get key store = None ∧ f key = Ok v)) ∧
  (∀ e, first.1.1 = Raise e →
     first.1.2 = store ∧ first.2 = true ∧
     second.1.1 = Raise e ∧ second.2 = true ∧ second.1.2 = store).
Proof.
  intros Hmax. cbv zeta.
  destruct (lru_get key store) as [v0|] eqn:Hget.
  - assert (lru_call maxsize f key store
            = (Ok v0, (key, v0) :: lru_drop key store, false)) as ->.
    { unfold lru_call. by rewrite Hget. }
    cbn [fst snd].
    assert (lru_call maxsize f key ((key, v0) :: lru_drop key store)
            = (Ok v0, (key, v0) :: lru_drop key ((key, v0) :: lru_drop key store),
               false)) as ->.
    { unfold lru_call. by rewrite lru_get_head. }
    cbn [fst snd]. split; [|done]. intros v [= ->].
    by rewrite !lru_get_head.
  - destruct (f key) as [v0|e0] eqn:Hf.
    + destruct maxsize as [|n]; [lia|].
      assert (lru_call (S n) f key store
              = (Ok v0, (key, v0) :: take n store, true)) as ->.
      { unfold lru_call. by rewrite Hget, Hf. }
      cbn [fst snd].
      assert (lru_call (S n) f key ((key, v0) :: take n store)
              = (Ok v0, (key, v0) :: lru_drop key ((key, v0) :: take n store),
                 false)) as ->.
      { unfold lru_call. by rewrite lru_get_head. }
      cbn [fst snd]. split; [|done]. intros v [= ->].
      by rewrite !lru_get_head.
    + assert (lru_call maxsize f key store = (Raise e0, store, true)) as ->.
      { unfold lru_call. by rewrite Hget, Hf. }
      cbn [fst snd].
      assert (lru_call maxsize f key store = (Raise e0, store, true)) as ->.
      { unfold lru_call. by rewrite Hget, Hf. }
      cbn [fst snd]. split; [done|]. by intros e [= ->].
Qed.
End LruTwice.

(** C9, as amended: two requests without an override whose clock readings
    lie in the same 60-second bucket get the same cache key (deadline
    epoch, quantized now, language) and so do the same lookup on any state
    of the animation cache.  When the first request returns an animation,
    which it does whenever the instants the assembler builds for the key
    fit a datetime, the animation is in the cache under that key and the
    second request, served right after, is answered from that entry
    without running the assembler, which ran at most once.  When the
    assembler raises, nothing is stored and the second request runs it
    again. *)
Theorem C9_same_bucket_same_entry (py_int : string → option Z)
    (end_time t1 t2 : datetime) (lang : string)
    (cache : list (Z * Z * string * gif)) :
  micros t1 `div` 60000000 = micros t2 `div` 60000000 →
  let first := timer_gif py_int end_time None lang t1 cache in
  let second := timer_gif py_int end_time None lang t2 first.1.2 in
  get_cache_key py_int end_time None lang t1
    = get_cache_key py_int end_time None lang t2 ∧
  get_cache_key py_int end_time None lang t1
    = Ok (int_of_float (timestamp end_time), micros t1 `div` 60000000 * 60, lang) ∧
  timer_gif py_int end_time None lang t1 cache
    = timer_gif py_int end_time None lang t2 cache ∧
  (∀ key g,
     get_cache_key py_int end_time None lang t1 = Ok key →
     first.1.1 = Ok g →
     lru_get key first.1.2 = Some g ∧
     second.1.1 = Ok g ∧ second.2 = false ∧
     lru_get key second.1.2 = Some g ∧
     (first.2 = true →
        lru_get key cache = None ∧
        generate_gif_cached key.1.1 key.1.2 key.2 = Ok g)) ∧
  (∀ key,
     get_cache_key py_int end_time None lang t1 = Ok key →
     valid_timestamp key.1.1 → valid_timestamp (key.1.1 + 3600) →
     valid_timestamp key.1.2 → valid_timestamp (key.1.2 + 59) →
     is_Ok first.1.1) ∧
  (∀ err,
     first.1.1 = Raise err →
     first.1.2 = cache ∧ first.2 = true ∧
     second.1.1 = Raise err ∧ second.2 = true ∧ second.1.2 = cache).
Proof.
  intros Hbucket first second.
  assert (get_cache_key py_int end_time None lang t2
          = get_cache_key py_int end_time None lang t1) as Hkey.
  { rewrite !get_cache_key_no_override. unfold spec_bucket. by rewrite Hbucket. }
  split; [done|]. split; [apply get_cache_key_no_override|].
  split; [unfold timer_gif; by rewrite Hkey|].
  set (f := λ k : Z * Z * string, generate_gif_cached k.1.1 k.1.2 k.2).
  set (key0 := (int_of_float (timestamp end_time), spec_bucket t1, lang)).
  assert (first = lru_call 256 f key0 cache) as Hfirst.
  { unfold first, timer_gif. by rewrite get_cache_key_no_override. }
  assert (second = lru_call 256 f key0 first.1.2) as Hsecond.
  { unfold second, timer_gif. by rewrite Hkey, get_cache_key_no_override. }
  destruct (lru_call_twice 256 f key0 cache ltac:(lia)) as [Hok Hraise].
  cbv zeta in Hok, Hraise. rewrite <-Hfirst in Hok, Hraise.
  rewrite <-Hsecond in Hok, Hraise.
  split; [|split].
  - intros key g. rewrite get_cache_key_no_override. intros [= <-].
    fold key0. apply Hok.
  - intros key. rewrite get_cache_key_no_override. intros [= <-].
    cbn [fst snd]. intros Hend Hend1 Hnow Hlast.
    destruct (generate_gif_cached_valid _ _ lang Hend Hend1 Hnow Hlast)
      as [g Hg].
    rewrite Hfirst. unfold lru_call.
    destruct (lru_get key0 cache) as [v|]; cbn [fst snd]; [by eexists|].
    change (f key0) with
      (generate_gif_cached (int_of_float (timestamp end_time))
         (spec_bucket t1) lang).
    rewrite Hg. by eexists.
  - exact Hraise.
Qed.

Lemma C9_same_bucket_same_entry_witness :
  ∃ g,
    (timer_gif int_literal (Datetime 1700003600000000) None "en"
       (Datetime 1700000100000000) []).1.1 = Ok g ∧
    (timer_gif int_literal (Datetime 1700003600000000) None "en"
       (Datetime 1700000159999999)
       (timer_gif int_literal (Datetime 1700003600000000) None "en"
          (Datetime 1700000100000000) []).1.2).1.1 = Ok g ∧
    (timer_gif int_literal (Datetime 1700003600000000) None "en"
       (Datetime 1700000159999999)
       (timer_gif int_literal (Datetime 1700003600000000) None "en"
          (Datetime 1700000100000000) []).1.2).2 = false ∧
    lru_get (1700003600, 1700000100, "en")
      (timer_gif int_literal (Datetime 1700003600000000) None "en"
         (Datetime 1700000100000000) []).1.2 = Some g.
Proof.
  destruct (C9_same_bucket_same_entry int_literal
              (Datetime 1700003600000000) (Datetime 1700000100000000)
              (Datetime 1700000159999999) "en" [] eq_refl)
    as (_ & Hkey & _ & Hhit & Hreturns & _).
  cbv zeta in Hhit, Hreturns.
  destruct (Hreturns (1700003600, 1700000100, "en") Hkey)
    as [g Hg]; [unfold valid_timestamp, MIN_MICROS, MAX_MICROS; cbn; lia..|].
  destruct (Hhit (1700003600, 1700000100, "en") g Hkey Hg)
    as (Hstored & Hsecond & Hran & _).
  exists g. split; [exact Hg|]. split; [exact Hsecond|].
  split; [exact Hran|exact Hstored].
Defined.

(** C9 as stated fails when the assembler raises: for a deadline half an
    hour before the end of the year 9999 both requests get the same key,
    yet the first stores no entry and the second runs the assembler
    again. *)
Lemma C9_raise_counterexample :
  get_cache_key int_literal (Datetime 253402299000000000) None "en"
    (Datetime 1700000100000000)
  = get_cache_key int_literal (Datetime 253402299000000000) None "en"
    (Datetime 1700000159999999) ∧
  timer_gif int_literal (Datetime 253402299000000000) None "en"
    (Datetime 1700000100000000) []
  = (Raise OverflowError, [], true) ∧
  timer_gif int_literal (Datetime 253402299000000000) None "en"
    (Datetime 1700000159999999) []
  = (Raise OverflowError, [], true).
Proof. by vm_compute. Qed.

(** ** The two views *)

Section ViewProperties.
Variable str_lower str_strip : string → string.
Variable best_match : list string → option string.
Variable fromisoformat : string → option parsed_datetime.
Variable local_instant : Z → datetime.
Variable py_int : string → option Z.
Variable textbbox : string → Z → Z * Z * Z * Z.

(** X15: the PNG view always answers except for a deadline without UTC
    offset: it lets a [TypeError] through exactly when [end] is given and
    parses to a naive datetime, and no other exception; a missing or empty
    [end] gives status 400, and a deadline with an offset always gives the
    image of the PNG-mode text. *)
Theorem X15_timer_png_outcomes (args : gmap string string) (clock : datetime) :
  let out :=
    timer_png_view str_lower str_strip best_match fromisoformat textbbox
      args clock in
  let parsed := fromisoformat (replace_Z (default "" (args !! "end"))) in
  let lang := pick_lang str_lower str_strip best_match (args !! "lang") in
  out ≠ OutOfFuel ∧
  (∀ e, out ≠ Uncaught (Core e)) ∧
  (out = Uncaught TypeError ↔
     truthy (args !! "end") = true ∧ ∃ wall, parsed = Some (Naive wall)) ∧
  (truthy (args !! "end") = false →
     out = Returns (TextStatus "Missing 'end' parameter" 400)) ∧
  (truthy (args !! "end") = true → parsed = None →
     out = Returns (TextStatus "Invalid end parameter" 400)) ∧
  (∀ end_time, truthy (args !! "end") = true → parsed = Some (Aware end_time) →
     ∃ text img,
       get_timer_text end_time clock "png" lang = Ok text ∧
       render_timer_frame textbbox text lang = Some img ∧
       out = Returns (SentFile (PngBytes img) "image/png"
                        [("Cache-Control", "public, max-age=60");
                         ("Vary", "Accept-Language")])).
Proof.
  intros out parsed lang. unfold out, timer_png_view. fold parsed lang.
  destruct (truthy (args !! "end")) eqn:Hend; cbn [negb].
  2: { repeat split; try done. by intros [? _]. }
  destruct parsed as [[end_time|wall]|] eqn:Hparsed.
  - unfold timer_png_text.
    destruct (timer_text_of_is_Ok
                (int_of_float (total_seconds (dt_sub end_time clock)))
                "png" lang) as [text Htext].
    assert (get_timer_text end_time clock "png" lang = Ok text) as Hget
      by exact Htext.
    rewrite Hget.
    assert (is_Some (render_timer_frame textbbox text lang)) as [img Himg].
    { unfold render_timer_frame.
      destruct (fit_loop_enough_fuel textbbox 63 text FONT_SIZE) as [size ->];
        [unfold FONT_SIZE; lia|].
      cbn [mbind option_bind].
      destruct (textbbox text size) as [[[x0 y0] x1] y1]. by eexists. }
    rewrite Himg. repeat split; try done.
    + by intros [_ [? ?]].
    + intros d _ [= <-]. by exists text, img.
  - repeat split; try done. by eexists.
  - repeat split; try done. by intros [_ [? ?]].
Qed.

(** X16: the GIF view keeps the animation cache sound and bounded, and
    changes it only when it answers with an image: on a store of at most
    256 assembler results, a 400 answer or an exception leaves the store
    as it was; an image answer carries what the assembler returns for the
    request's key, has type image/gif and the headers
    "Cache-Control: public, max-age=60" and "Vary: Accept-Language"; the
    view never lets a [TypeError] through. *)
Theorem X16_timer_gif_view_outcomes (args : gmap string string)
    (clock : datetime) (cache : list (Z * Z * string * gif)) :
  cache_consistent cache → (length cache ≤ 256)%nat →
  let out :=
    (timer_gif_view str_lower str_strip best_match fromisoformat
       local_instant py_int args clock cache).1 in
  let cache' :=
    (timer_gif_view str_lower str_strip best_match fromisoformat
       local_instant py_int args clock cache).2 in
  cache_consistent cache' ∧ (length cache' ≤ 256)%nat ∧
  out ≠ OutOfFuel ∧ out ≠ Uncaught TypeError ∧
  (∀ text status, out = Returns (TextStatus text status) →
     status = 400 ∧ cache' = cache) ∧
  (∀ e, out = Uncaught e → cache' = cache) ∧
  (∀ data mimetype headers, out = Returns (SentFile data mimetype headers) →
     mimetype = "image/gif" ∧
     headers = [("Cache-Control", "public, max-age=60");
                ("Vary", "Accept-Language")] ∧
     ∃ g e q,
       data = GifBytes g ∧
       generate_gif_cached e q
         (pick_lang str_lower str_strip best_match (args !! "lang")) = Ok g ∧
       (g ∈ snd <$> cache')).
Proof.
  intros Hcons Hlen out cache'. unfold out, cache', timer_gif_view.
  destruct (truthy (args !! "end")) eqn:Hend; cbn [negb fst snd].
  2: { repeat split; try done; congruence. }
  destruct (fromisoformat _) as [parsed|]; cbn [fst snd].
  2: { repeat split; try done; congruence. }
  set (end_time := match parsed with
                   | Aware d => d
                   | Naive wall => local_instant wall
                   end).
  set (lang := pick_lang str_lower str_strip best_match (args !! "lang")).
  destruct (timer_gif_invariants py_int end_time clock (args !! "t") lang cache Hcons Hlen)
    as (e & q & Hres & Hcons' & Hlen' & Hraise & Hin).
  destruct (timer_gif py_int end_time (args !! "t") lang clock cache)
    as [[[g|err] store] ran]; cbn [fst snd] in *.
  - repeat split; try done; try congruence.
    + match goal with H : Returns _ = Returns _ |- _ => injection H as <- <- <- end.
      reflexivity.
    + match goal with H : Returns _ = Returns _ |- _ => injection H as <- <- <- end.
      exists g, e, q. split; [done|]. split; [done|]. by apply Hin.
  - repeat split; try done; try congruence. intros _ _. by apply (Hraise err).
Qed.
End ViewProperties.

Lemma X15_timer_png_outcomes_witness :
  timer_png_view lower_ascii strip (λ offered, head offered)
    fromisoformat_sample monospace_bbox
    (<["end" := "2023-11-14T23:13:20"]> ∅) (Datetime 1700000000000000)
  = Uncaught TypeError ∧
  ∃ img,
    timer_png_view lower_ascii strip (λ offered, head offered)
      fromisoformat_sample monospace_bbox
      (<["end" := "2023-11-14T23:13:20Z"]> ∅) (Datetime 1700000000000000)
    = Returns (SentFile (PngBytes img) "image/png"
                 [("Cache-Control", "public, max-age=60");
                  ("Vary", "Accept-Language")]) ∧
    badge_text img = "01:00".
Proof.
  split.
  - apply (X15_timer_png_outcomes lower_ascii strip (λ offered, head offered)
             fromisoformat_sample monospace_bbox
             (<["end" := "2023-11-14T23:13:20"]> ∅) (Datetime 1700000000000000)).
    split; [reflexivity|]. by eexists.
  - destruct (X15_timer_png_outcomes lower_ascii strip (λ offered, head offered)
                fromisoformat_sample monospace_bbox
                (<["end" := "2023-11-14T23:13:20Z"]> ∅)
                (Datetime 1700000000000000))
      as (_ & _ & _ & _ & _ & Haware).
    destruct (Haware (Datetime 1700003600000000) eq_refl eq_refl)
      as (text & img & Htext & Himg & Hout).
    exists img. split; [exact Hout|].
    vm_compute in Htext. injection Htext as <-.
    vm_compute in Himg. injection Himg as <-. reflexivity.
Defined.

Lemma X16_timer_gif_view_outcomes_witness :
  (timer_gif_view lower_ascii strip (λ offered, head offered)
     fromisoformat_sample Datetime int_literal
     (<["end" := "not a date"]> ∅) (Datetime 1700000000000000) []).2 = [] ∧
  (length (timer_gif_view lower_ascii strip (λ offered, head offered)
             fromisoformat_sample Datetime int_literal
             (<["end" := "2023-11-14T23:13:20Z"]> ∅)
             (Datetime 1700000000000000) []).2 ≤ 256)%nat.
Proof.
  split.
  - destruct (X16_timer_gif_view_outcomes lower_ascii strip
                (λ offered, head offered) fromisoformat_sample Datetime
                int_literal (<["end" := "not a date"]> ∅)
                (Datetime 1700000000000000) []
                ltac:(constructor) ltac:(cbn; lia))
      as (_ & _ & _ & _ & Hstatus & _).
    by apply (Hstatus "Invalid end parameter" 400).
  - apply (X16_timer_gif_view_outcomes lower_ascii strip
             (λ offered, head offered) fromisoformat_sample Datetime
             int_literal (<["end" := "2023-11-14T23:13:20Z"]> ∅)
             (Datetime 1700000000000000) []
             ltac:(constructor) ltac:(cbn; lia)).
Defined.

(** ** The text in terms of the exact time difference *)

Lemma quot_bounds (d : Z) :
  (1000000 ≤ d → d `quot` 1000000 = d `div` 1000000 ∧ 0 < d `quot` 1000000) ∧
  (-3601000000 < d < 1000000 → -3600 ≤ d `quot` 1000000 ≤ 0) ∧
  (d ≤ -3601000000 → d `quot` 1000000 < -3600).
Proof.
  pose proof (Z.quot_rem' d 1000000) as Hqr.
  pose proof (Z.rem_bound_abs d 1000000 ltac:(lia)) as Hrem.
  assert (0 ≤ d → 0 ≤ d `rem` 1000000) as Hpos
    by (intros; apply Z.rem_nonneg; lia).
  assert (d ≤ 0 → d `rem` 1000000 ≤ 0) as Hneg
    by (intros; apply Z.rem_nonpos; lia).
  split; [|split].
  - intros Hd. split; [apply Z.quot_div_nonneg; lia|lia].
  - lia.
  - lia.
Qed.

(** X17: [get_timer_text] by the exact difference deadline - now: from one
    full second before the deadline on, and up to 2^33 seconds before it
    (where the float of [total_seconds()] keeps the whole seconds), it shows
    the countdown of the whole seconds; from less than one second before
    the deadline until less than 3601 seconds after it, it shows
    "started"; from 3601 seconds after the deadline on it shows "over". *)
Theorem X17_text_by_difference (end_time now : datetime) (mode lang : string) :
  let d := micros end_time - micros now in
  (1000000 ≤ d < 8589934592 * 1000000 →
     get_timer_text end_time now mode lang
     = Ok (if decide (mode = "png") then hh_mm (d `div` 1000000)
           else hh_mm_ss (d `div` 1000000))) ∧
  (-3601000000 < d < 1000000 →
     get_timer_text end_time now mode lang = t lang "started") ∧
  (d ≤ -3601000000 →
     get_timer_text end_time now mode lang = t lang "over").
Proof.
  intros d. unfold get_timer_text, int_of_float, total_seconds, dt_sub.
  cbn [sf_micros td_micros]. fold d.
  destruct (quot_bounds d) as (Hcount & Hstarted & Hover).
  split; [|split].
  - intros [Hd _]. destruct (Hcount Hd) as [Heq Hpos]. rewrite Heq in *.
    destruct (decide (mode = "png")) as [->|Hmode].
    + apply timer_text_of_png. lia.
    + apply timer_text_of_gif; [lia|done].
  - intros Hd. apply timer_text_of_started. by apply Hstarted.
  - intros Hd. apply timer_text_of_over. by apply Hover.
Qed.

Lemma X17_text_by_difference_witness :
  get_timer_text (Datetime 999999) (Datetime 0) "png" "en"
    = Ok "MATCH HAS STARTED" ∧
  get_timer_text (Datetime 1000000) (Datetime 0) "png" "en" = Ok "00:00".
Proof.
  destruct (X17_text_by_difference (Datetime 999999) (Datetime 0) "png" "en")
    as (_ & Hstarted & _).
  destruct (X17_text_by_difference (Datetime 1000000) (Datetime 0) "png" "en")
    as (Hcount & _ & _).
  split.
  - rewrite Hstarted by (cbn; lia). reflexivity.
  - rewrite Hcount by (cbn; lia). reflexivity.
Defined.

Lemma pretty_three_digits (n : Z) :
  100 ≤ n → (3 ≤ String.length (pretty n))%nat.
Proof.
  intros Hn. rewrite pretty_Z_nonneg by lia.
  unfold pretty, pretty_N. rewrite decide_False by lia.
  assert (10 ≤ Z.to_N n `div` 10)%N as Hq.
  { apply N.div_le_lower_bound; lia. }
  assert (0 < (Z.to_N n `div` 10) `div` 10)%N by (apply N.div_str_pos; lia).
  rewrite pretty_N_go_step by lia.
  rewrite pretty_N_go_step by lia.
  rewrite pretty_N_go_step by lia.
  etrans; [|apply pretty_N_go_length]. cbn [String.length]. lia.
Qed.

(** X18: the countdown text is exactly 8 characters while less than 100
    hours remain and longer from 100 hours on. *)
Theorem X18_hh_mm_ss_length (remaining : Z) :
  0 ≤ remaining →
  (remaining < 360000 → String.length (hh_mm_ss remaining) = 8%nat) ∧
  (360000 ≤ remaining → (9 ≤ String.length (hh_mm_ss remaining))%nat).
Proof.
  intros Hr. destruct (hms_fields remaining Hr) as (Hsum & Hh & Hm & Hs).
  unfold hh_mm_ss. cbv zeta in *. rewrite !string_app_length.
  rewrite (format_02_length ((remaining `mod` 3600) `div` 60)) by lia.
  rewrite (format_02_length (remaining `mod` 60)) by lia.
  change (String.length ":") with 1%nat.
  split.
  - intros Hlt. rewrite format_02_length; [lia|].
    split; [lia|]. apply Z.div_lt_upper_bound; lia.
  - intros Hge.
    assert (100 ≤ remaining `div` 3600) by (apply Z.div_le_lower_bound; lia).
    rewrite format_02_unpadded by lia.
    pose proof (pretty_three_digits (remaining `div` 3600) ltac:(lia)). lia.
Qed.

Lemma X18_hh_mm_ss_length_witness :
  String.length (hh_mm_ss 359999) = 8%nat ∧
  (9 ≤ String.length (hh_mm_ss 360000))%nat.
Proof.
  split.
  - apply (X18_hh_mm_ss_length 359999); lia.
  - apply (X18_hh_mm_ss_length 360000); lia.
Defined.
